(** * My_Tpetra_Vector: creating distributed Tpetra vectors

    A shallow embedding of [src/custom/My_Tpetra_Vector/My_Tpetra_Vector.cpp]
    (the routine [exampleRoutine] and the driver [main]) and the properties
    of the run that the specification states.

    The example is an SPMD program: every process of the communicator runs
    the same routine with its own rank.  The Tpetra objects are collective,
    so a Map and a Vector are modelled as the global object (the part of
    every rank), while the routine is followed on one calling process. *)

From Stdlib Require Import ZArith List Floats Lia.
From stdpp Require Import base list strings.

#[local] Set Warnings "-inexact-float".
Local Open Scope Z_scope.

(** ** Machine integers

    The routine uses [int] (process count, rank), [long] (global ordinals),
    the signed size type of [Teuchos::Array] and the unsigned
    [Tpetra::global_size_t].  On the LP64 platforms the example targets these
    are 32, 64, 64 and 64 bits wide.  Values are kept in [Z] and every
    arithmetic result is reduced to its type. *)

Module MachineInt.

Definition INT_MAX : Z := 2147483647.

(** Two's complement reduction to [w] bits. *)
Definition wrap_signed (w : Z) (x : Z) : Z :=
  (x + 2 ^ (w - 1)) mod 2 ^ w - 2 ^ (w - 1).

Definition int_wrap (x : Z) : Z := wrap_signed 32 x.
Definition long_wrap (x : Z) : Z := wrap_signed 64 x.

(** Conversion to the unsigned 64-bit [global_size_t]. *)
Definition to_global_size_t (x : Z) : Z := x mod 2 ^ 64.

Definition in_int (x : Z) : Prop := - INT_MAX - 1 <= x <= INT_MAX.

End MachineInt.
Import MachineInt.

(** ** The communicator

    [Teuchos::Comm<int>]: the number of processes and the rank of the calling
    process, both [int]. *)

Record Comm : Type := mkComm { getSize : Z; getRank : Z }.

(** A communicator the MPI runtime can hand out: at least one process, and
    the rank below the size. *)
Definition valid_comm (comm : Comm) : Prop :=
  0 < getSize comm <= INT_MAX /\ 0 <= getRank comm < getSize comm.

(** ** The element list of the cyclic Map (lines 156-162)

    [Array<global_ordinal_type> elementList (numEltsPerProc)] holds
    [numEltsPerProc] zeros; the loop stores [myRank + k*numProcs] at index
    [k].  The index [k] has the 64-bit signed size type, so the product and
    the sum are 64-bit. *)

Fixpoint fill_elementList (fuel : nat) (k numEltsPerProc myRank numProcs : Z)
    (elementList : list Z) : list Z :=
  match fuel with
  | O => elementList
  | S fuel' =>
      if k <? numEltsPerProc then
        fill_elementList fuel' (long_wrap (k + 1)) numEltsPerProc myRank numProcs
          (<[Z.to_nat k := long_wrap (myRank + long_wrap (k * numProcs))]> elementList)
      else elementList
  end.

Definition elementList_of (numProcs myRank : Z) : list Z :=
  let numEltsPerProc := 5 in
  fill_elementList (Z.to_nat numEltsPerProc) 0 numEltsPerProc myRank numProcs
    (replicate (Z.to_nat numEltsPerProc) 0).

(** ** Streams, exceptions and the trace of a run *)

(** [main] hands the routine [std::cout] on rank 0 and a
    [Teuchos::oblackholestream] elsewhere. *)
Inductive ostream : Type := std_cout | blackHole.

(** What [operator<<] is applied to. *)
Inductive token : Type :=
| Text (s : string)
| Endl
| IntValue (z : Z)
| Magnitude (m : option float).

(** [std::logic_error] is what the routine throws itself.  A vector handle
    that refers to no object is [Teuchos::NullReferenceError]. *)
Inductive exception : Type :=
| logic_error (what : string)
| NullReferenceError.

Inductive outcome (A : Type) : Type :=
| Normal (a : A)
| Raised (e : exception).
Arguments Normal {A} a.
Arguments Raised {A} e.

(** Every call that leaves the routine (a stream, the shell, Tpetra) is
    recorded, in program order.  Maps and vectors are named by the number
    under which they were allocated. *)
Inductive event : Type :=
| EOut (out : ostream) (t : token)
| ESystem (command : string)
| ENewContiguousMap (m : nat) (numGlobalElements indexBase : Z)
| ENewMapFromList (m : nat) (numGlobalElements : Z) (elementList : list Z)
    (indexBase : Z)
| EIsContiguous (m : nat)
| EIsCompatible (m1 m2 : nat)
| EIsSameAs (m1 m2 : nat)
| ENewVector (v : nat) (m : nat) (zeroOut : bool)
| ECopyVector (v : nat) (source : nat)
| ERandomize (v : nat)
| EPutScalar (v : nat) (value : float)
| EUpdate (v : nat) (a : float) (A : nat) (b : float)
| EUpdate2 (v : nat) (a : float) (A : nat) (b : float) (B : nat) (c : float)
| ENorm2 (v : nat).

(** What the run takes from outside: the version string of the library, the
    status [system] returns for a command, and the numbers the generator
    behind [randomize] hands out (by call, rank and local index). *)
Record environment : Type := mkEnv {
  Tpetra_version : string;
  system_status : string -> Z;
  random_value : nat -> nat -> nat -> float
}.

(** ** Tpetra::Map as an interface

    The routine only constructs Maps and asks them three questions.  The
    library is not part of the example, so the routine is written against
    this interface; [TpetraMap.library] below gives the implementation the
    specification describes. *)
Class MapLibrary : Type := {
  map_type : Type;
  (** [Map (numGlobalElements, indexBase, comm, GloballyDistributed, node)] *)
  new_contiguous_map : Z -> Z -> Comm -> map_type;
  (** [Map (numGlobalElements, elementList, indexBase, comm, node)]; the
      constructor is collective and receives the list of every rank. *)
  new_map_from_list : Z -> (Z -> list Z) -> Z -> Comm -> map_type;
  isContiguous : map_type -> bool;
  isCompatible : map_type -> map_type -> bool;
  isSameAs : map_type -> map_type -> bool;
  (** the number of elements each rank owns, by rank *)
  localSizes : map_type -> list nat
}.

(** ** The entries of a Tpetra::Vector

    For every rank, the entries that rank stores.  An entry that was never
    written is [None].  The scalar type of the example is [double], kept as
    the binary64 numbers of [PrimFloat]. *)

Module VectorData.

(** [Teuchos::ScalarTraits<scalar_type>::one()] *)
Definition scalar_one : float := 1%float.

(** Modelled from the spec: the constructors of [Tpetra::Vector] are not
    among the sources.  Section 4, step f: a vector is "zero-filled" or
    "uninitialized"; line 197: "this version of the constructor will fill in
    the vector with zeros", line 205: "calling the constructor with false
    for the second argument leaves the data uninitialized".  [sizes] is the
    number of entries of each rank. *)
Definition allocate (zeroOut : bool) (sizes : list nat)
    : list (list (option float)) :=
  (fun n => replicate n (if zeroOut then Some 0%float else None)) <$> sizes.

(** Modelled from the spec: [Vector::randomize] is not among the sources.
    Section 4, step f: "filled with pseudo-random values"; the values are
    those of the environment. *)
Definition randomize (E : environment) (call : nat)
    (d : list (list (option float))) : list (list (option float)) :=
  imap (fun rank row => imap (fun i _ => Some (random_value E call rank i)) row) d.

(** Modelled from the spec: [Vector::putScalar] is not among the sources.
    Section 4, step g: "set all entries" to the value. *)
Definition putScalar (value : float) (d : list (list (option float)))
    : list (list (option float)) :=
  (fun row : list (option float) =>
     (fun _ : option float => Some value) <$> row) <$> d.

(** Modelled from the spec: [this = b*this + a*A] for one entry (see
    [update]); an entry never written stays unknown. *)
Definition axpby (a b : float) (this A : option float) : option float :=
  x ← this; y ← A; Some (b * x + a * y)%float.

(** Modelled from the spec: [Vector::update] with one vector is not among
    the sources.  Section 4, step g, and line 225: [x->update (alpha, z,
    beta)] computes "x = beta*x + alpha*z", entry by entry. *)
Definition update (a : float) (A : list (list (option float))) (b : float)
    (this : list (list (option float))) : list (list (option float)) :=
  zip_with (zip_with (axpby a b)) this A.

(** Modelled from the spec: [this = c*this + a*A + b*B] for one entry (see
    [update2]). *)
Definition axpbypcz (a b c : float) (this A B : option float) : option float :=
  x ← this; y ← A; z ← B; Some (c * x + a * y + b * z)%float.

(** Modelled from the spec: [Vector::update] with two vectors is not among
    the sources.  Section 4, step g, and line 232: [y->update (alpha, x,
    beta, z, gamma)] computes "y = gamma*y + alpha*x + beta*z". *)
Definition update2 (a : float) (A : list (list (option float))) (b : float)
    (B : list (list (option float))) (c : float)
    (this : list (list (option float))) : list (list (option float)) :=
  zip_with (fun this_A B_row =>
              zip_with (fun xa z => axpbypcz a b c xa.1 xa.2 z) this_A B_row)
    (zip_with zip this A) B.

(** Modelled from the spec: the sum of the squares of the entries of one
    rank, left to right (see [norm2]). *)
Definition sum_squares (acc : option float) (row : list (option float))
    : option float :=
  foldl (fun s x => s' ← s; x' ← x; Some (s' + x' * x')%float) acc row.

(** Modelled from the spec: [Vector::norm2] is not among the sources.
    Section 4, step h: "the Euclidean (2-)norm"; section 5: a collective
    reduction.  Every rank adds up the squares of its entries, the partial
    sums are added in rank order, and the root of the total is taken. *)
Definition norm2 (d : list (list (option float))) : option float :=
  PrimFloat.sqrt <$>
    foldl (fun s row => s' ← s; r ← sum_squares (Some 0%float) row; Some (s' + r)%float)
      (Some 0%float) d.

(** The entry with local index [i] on rank [rank], when the vector has one. *)
Definition entry (d : list (list (option float))) (rank i : nat)
    : option (option float) :=
  row ← d !! rank; row !! i.

End VectorData.

(** ** The state of a run and its monad *)

Section Routine.

Context {ML : MapLibrary}.
Variable E : environment.

(** [RCP<const map_type>]: Maps are immutable, so a reference is the
    object together with the number that tells it from other Maps. *)
Record map_ref : Type := mkMapRef { map_id : nat; map_obj : map_type }.

(** [Tpetra::Vector]: the Map it was built over and its entries. *)
Record vector_type : Type := mkVector {
  getMap : map_ref;
  localData : list (list (option float))
}.

(** Vectors are mutable and shared through [RCP], so they live in a store
    and the routine holds their positions. *)
Record world : Type := mkWorld {
  w_trace : list event;
  w_maps : nat;
  w_vectors : list vector_type;
  w_randomize_calls : nat
}.

Definition initial_world : world := mkWorld [] 0 [] 0.

Definition M (A : Type) : Type := world -> outcome A * world.

#[export] Instance M_ret : MRet M := fun A a w => (Normal a, w).
#[export] Instance M_bind : MBind M := fun A B f m w =>
  match m w with
  | (Normal a, w') => f a w'
  | (Raised e, w') => (Raised e, w')
  end.

Definition raise {A : Type} (e : exception) : M A := fun w => (Raised e, w).

Definition emit (e : event) : M unit := fun w =>
  (Normal tt, mkWorld (w_trace w ++ [e]) (w_maps w) (w_vectors w)
                      (w_randomize_calls w)).

(** *** Calls that leave the routine *)

(** [out << t] *)
Definition write (out : ostream) (t : token) : M unit := emit (EOut out t).

(** [system (command)] *)
Definition system (command : string) : M Z :=
  emit (ESystem command);; mret (system_status E command).

Definition fresh_map : M nat := fun w =>
  (Normal (w_maps w),
   mkWorld (w_trace w) (S (w_maps w)) (w_vectors w) (w_randomize_calls w)).

Definition Map_new_contiguous (numGlobalElements indexBase : Z) (comm : Comm)
    : M map_ref :=
  m ← fresh_map;
  emit (ENewContiguousMap m numGlobalElements indexBase);;
  mret (mkMapRef m (new_contiguous_map numGlobalElements indexBase comm)).

Definition Map_new_from_list (numGlobalElements : Z) (elementList : Z -> list Z)
    (indexBase : Z) (comm : Comm) : M map_ref :=
  m ← fresh_map;
  emit (ENewMapFromList m numGlobalElements (elementList (getRank comm)) indexBase);;
  mret (mkMapRef m (new_map_from_list numGlobalElements elementList indexBase comm)).

Definition Map_isContiguous (m : map_ref) : M bool :=
  emit (EIsContiguous (map_id m));; mret (isContiguous (map_obj m)).

Definition Map_isCompatible (m1 m2 : map_ref) : M bool :=
  emit (EIsCompatible (map_id m1) (map_id m2));;
  mret (isCompatible (map_obj m1) (map_obj m2)).

Definition Map_isSameAs (m1 m2 : map_ref) : M bool :=
  emit (EIsSameAs (map_id m1) (map_id m2));;
  mret (isSameAs (map_obj m1) (map_obj m2)).

Definition store_vector (v : vector_type) : M nat := fun w =>
  (Normal (length (w_vectors w)),
   mkWorld (w_trace w) (w_maps w) (w_vectors w ++ [v]) (w_randomize_calls w)).

(** Dereferencing a vector handle. *)
Definition deref (v : nat) : M vector_type := fun w =>
  match w_vectors w !! v with
  | Some obj => (Normal obj, w)
  | None => (Raised NullReferenceError, w)
  end.

Definition assign (v : nat) (obj : vector_type) : M unit := fun w =>
  (Normal tt,
   mkWorld (w_trace w) (w_maps w) (<[v := obj]> (w_vectors w)) (w_randomize_calls w)).

Definition next_randomize_call : M nat := fun w =>
  (Normal (w_randomize_calls w),
   mkWorld (w_trace w) (w_maps w) (w_vectors w) (S (w_randomize_calls w))).

(** [new vector_type (map, zeroOut)]; [zeroOut] defaults to [true]. *)
Definition Vector_new (m : map_ref) (zeroOut : bool) : M nat :=
  v ← store_vector (mkVector m (VectorData.allocate zeroOut (localSizes (map_obj m))));
  emit (ENewVector v (map_id m) zeroOut);;
  mret v.

(** [new vector_type] applied to the object behind [source]: the copy
    constructor, a deep copy. *)
Definition Vector_copy (source : nat) : M nat :=
  obj ← deref source;
  v ← store_vector (mkVector (getMap obj) (localData obj));
  emit (ECopyVector v source);;
  mret v.

Definition Vector_randomize (v : nat) : M unit :=
  obj ← deref v;
  call ← next_randomize_call;
  assign v (mkVector (getMap obj) (VectorData.randomize E call (localData obj)));;
  emit (ERandomize v).

Definition Vector_putScalar (v : nat) (value : float) : M unit :=
  obj ← deref v;
  assign v (mkVector (getMap obj) (VectorData.putScalar value (localData obj)));;
  emit (EPutScalar v value).

(** [v->update (a, *A, b)] *)
Definition Vector_update (v : nat) (a : float) (A : nat) (b : float) : M unit :=
  obj ← deref v;
  objA ← deref A;
  assign v (mkVector (getMap obj)
              (VectorData.update a (localData objA) b (localData obj)));;
  emit (EUpdate v a A b).

(** [v->update (a, *A, b, *B, c)] *)
Definition Vector_update2 (v : nat) (a : float) (A : nat) (b : float) (B : nat)
    (c : float) : M unit :=
  obj ← deref v;
  objA ← deref A;
  objB ← deref B;
  assign v (mkVector (getMap obj)
              (VectorData.update2 a (localData objA) b (localData objB) c
                 (localData obj)));;
  emit (EUpdate2 v a A b B c).

Definition Vector_norm2 (v : nat) : M (option float) :=
  obj ← deref v;
  emit (ENorm2 v);;
  mret (VectorData.norm2 (localData obj)).

(** *** The routine *)

(** Modelled from the spec: the Teuchos macro [TEST_FOR_EXCEPTION] is not
    among the sources.  Section 7 of the specification: an assertion that,
    on failure, raises a fatal logic-error condition; the first argument is
    the failure test, the last the text of the error. *)
Definition TEST_FOR_EXCEPTION (throw_exception_test : bool)
    (Exception : string -> exception) (msg : string) : M unit :=
  if throw_exception_test then raise (Exception msg) else mret tt.

(** [a && b]: [b] is evaluated only when [a] holds. *)
Definition and_then (a : bool) (b : M bool) : M bool :=
  if a then b else mret false.

Definition command : string := "echo helloooo!".

(** Lines 22-26.  [number] (line 23) is never used. *)
Definition printHeader (out : ostream) : M unit :=
  write out (Text (Tpetra_version E));; write out Endl;; write out Endl;;
  write out (Text "This is a test");; write out Endl;;
  status ← system command;
  write out (IntValue status).

(** Line 120: [comm->getSize() * 5] is a product of two [int]s, converted
    to [global_size_t] afterwards.  Where the product leaves the range of
    [int] C++ leaves the result open; the model takes the two's complement
    result that the usual compilers produce. *)
Definition numGlobalElements_of (comm : Comm) : Z :=
  to_global_size_t (int_wrap (getSize comm * 5)).

Definition indexBase : Z := 0.

(** Lines 120-184.  Every process runs lines 156-162 with its own rank; the
    constructor of the cyclic Map is collective and sees the list of each. *)
Definition createMaps (comm : Comm) : M (map_ref * map_ref) :=
  let numGlobalElements := numGlobalElements_of comm in
  contigMap ← Map_new_contiguous numGlobalElements indexBase comm;
  c ← Map_isContiguous contigMap;
  TEST_FOR_EXCEPTION (negb c) logic_error
    "The supposedly contiguous Map isn't contiguous.";;
  let numProcs := getSize comm in
  cyclicMap ← Map_new_from_list numGlobalElements
                (fun myRank => elementList_of numProcs myRank) indexBase comm;
  t ← and_then (getSize comm >? 1) (Map_isContiguous cyclicMap);
  TEST_FOR_EXCEPTION t logic_error
    "The cyclic Map claims to be contiguous.";;
  c ← Map_isCompatible contigMap cyclicMap;
  TEST_FOR_EXCEPTION (negb c) logic_error
    "contigMap should be compatible with cyclicMap, but it's not.";;
  t ← and_then (getSize comm >? 1) (Map_isSameAs contigMap cyclicMap);
  TEST_FOR_EXCEPTION t logic_error
    "contigMap should be compatible with cyclicMap, but it's not.";;
  mret (contigMap, cyclicMap).

(** Lines 198-212. *)
Definition createVectors (contigMap : map_ref) : M (nat * nat * nat) :=
  x ← Vector_new contigMap true;
  y ← Vector_copy x;
  z ← Vector_new contigMap false;
  Vector_randomize z;;
  mret (x, y, z).

Definition alpha : float := 3.14159%float.
Definition beta : float := 2.71828%float.
Definition gamma : float := (-10)%float.

(** Lines 219-233. *)
Definition arithmetic (x y z : nat) : M unit :=
  Vector_putScalar x VectorData.scalar_one;;
  Vector_update x alpha z beta;;
  Vector_putScalar y 42%float;;
  Vector_update2 y alpha x beta z gamma.

(** Lines 241-255. *)
Definition printNorms (out : ostream) (x y z : nat) : M unit :=
  theNorm ← Vector_norm2 y;
  write out (Text "Norm of y: ");; write out (Magnitude theNorm);;
  write out Endl;;
  write out (Text "This is my new Code!");; write out Endl;;
  theXNorm ← Vector_norm2 x;
  write out (Text "Norm of x?: ");; write out (Magnitude theXNorm);;
  write out Endl;;
  theZNorm ← Vector_norm2 z;
  write out (Text "Norm of z?: ");; write out (Magnitude theZNorm);;
  write out Endl.

Definition exampleRoutine (comm : Comm) (out : ostream) : M unit :=
  printHeader out;;
  maps ← createMaps comm;
  vectors ← createVectors maps.1;
  arithmetic vectors.1.1 vectors.1.2 vectors.2;;
  printNorms out vectors.1.1 vectors.1.2 vectors.2.

(** *** The driver (lines 261-280)

    The communicator comes from the MPI session.  An exception that leaves
    [exampleRoutine] is caught nowhere, so the process is terminated and
    [return 0] is not reached. *)
Inductive termination : Type :=
| Exit (code : Z)
| Terminated (e : exception).

Definition main (comm : Comm) : termination * world :=
  let myRank := getRank comm in
  let out := if myRank =? 0 then std_cout else blackHole in
  match exampleRoutine comm out initial_world with
  | (Normal _, w) => (Exit 0, w)
  | (Raised e, w) => (Terminated e, w)
  end.

End Routine.

(** ** The Maps of the specification *)

Module TpetraMap.

(** Modelled from the spec: the class [Tpetra::Map] is not among the
    sources.  Section 3 of the specification: an Index Map is an immutable
    assignment of global integer indices to owning process ranks.  The
    model keeps, for every rank, the global indices that rank owns in
    local order, next to the global element count and the index base the
    Map was built with. *)
Record t : Type := mkMap {
  numGlobalElements : Z;
  indexBase : Z;
  nodeElementLists : list (list Z)
}.

(** The ranks of a communicator, in order. *)
Definition ranks (comm : Comm) : list Z :=
  Z.of_nat <$> seq 0 (Z.to_nat (getSize comm)).

(** [len] consecutive global indices from [start]. *)
Definition block (start : Z) (len : nat) : list Z :=
  (fun i : nat => start + Z.of_nat i) <$> seq 0 len.

(** Modelled from the spec: the constructor of a contiguous Map is not
    among the sources; this is the number of elements of rank [r].  Glossary: "Contiguous distribution: each process
    owns one unbroken block of global indices"; the example builds the Map
    so that it "puts the same number of equations on each processor"
    (comment at line 128).  The blocks follow each other in rank order; a
    count that the process count does not divide leaves one more element
    on each of the lowest ranks. *)
Definition uniform_count (n P r : Z) : Z :=
  n / P + (if r <? n mod P then 1 else 0).

(** Modelled from the spec: as above, the offset of the block of rank [r]
    from the index base. *)
Definition uniform_start (n P r : Z) : Z :=
  r * (n / P) + Z.min r (n mod P).

(** Modelled from the spec: as above, [Map (numGlobalElements, indexBase,
    comm, GloballyDistributed, node)]: rank [r] owns the block of
    [uniform_count] indices from [base + uniform_start]. *)
Definition contiguous (n base : Z) (comm : Comm) : t :=
  let P := getSize comm in
  mkMap n base
    ((fun r => block (base + uniform_start n P r) (Z.to_nat (uniform_count n P r)))
       <$> ranks comm).

(** Modelled from the spec: the constructor of a Map from element lists is
    not among the sources.  Section 3: "explicit-list-based (arbitrary
    distribution, here cyclic)"; every rank owns the indices it lists. *)
Definition from_list (n : Z) (elementList : Z -> list Z) (base : Z)
    (comm : Comm) : t :=
  mkMap n base (elementList <$> ranks comm).

(** Modelled from the spec: the glossary's "one unbroken block of global
    indices", for the list of one rank. *)
Definition is_block (l : list Z) : bool :=
  match l with
  | [] => true
  | g :: _ => bool_decide (l = block g (length l))
  end.

(** Modelled from the spec: [Map::isContiguous] is not among the sources.
    Glossary: "each process owns one unbroken block of global indices". *)
Definition isContiguous (m : t) : bool :=
  forallb is_block (nodeElementLists m).

(** Modelled from the spec: [Map::isCompatible] is not among the sources.
    Section 3: "Two maps are compatible if they have the same global
    element count and the same owning-process count distribution shape,
    even if the specific index-to-rank assignment differs". *)
Definition isCompatible (m1 m2 : t) : bool :=
  bool_decide (numGlobalElements m1 = numGlobalElements m2)
  && bool_decide (length <$> nodeElementLists m1 = length <$> nodeElementLists m2).

(** Modelled from the spec: [Map::isSameAs] is not among the sources.
    Section 8: "identical as distributions", that is the same assignment of
    global indices to ranks. *)
Definition isSameAs (m1 m2 : t) : bool :=
  bool_decide (numGlobalElements m1 = numGlobalElements m2)
  && bool_decide (nodeElementLists m1 = nodeElementLists m2).

(** Modelled from the spec: the number of entries each rank stores of a
    vector over the Map (section 3: "each process physically stores only the
    entries it owns"). *)
Definition localSizes (m : t) : list nat := length <$> nodeElementLists m.

#[export] Instance library : MapLibrary :=
  Build_MapLibrary t contiguous from_list isContiguous isCompatible isSameAs
    localSizes.

End TpetraMap.

(** ** The objects and the states of a run *)

Section RunDefinitions.

Context {ML : MapLibrary}.
Variable E : environment.
Variable comm : Comm.
Variable out : ostream.

(** The two Maps of the routine: the first and the second Map allocated. *)
Definition contigMap : map_ref :=
  mkMapRef 0 (new_contiguous_map (numGlobalElements_of comm) indexBase comm).

Definition cyclicMap : map_ref :=
  mkMapRef 1 (new_map_from_list (numGlobalElements_of comm)
                (elementList_of (getSize comm)) indexBase comm).

(** The failure tests of the four assertions (lines 140, 170, 177, 181). *)
Definition test1 : bool := negb (isContiguous (map_obj contigMap)).
Definition test2 : bool :=
  (getSize comm >? 1) && isContiguous (map_obj cyclicMap).
Definition test3 : bool :=
  negb (isCompatible (map_obj contigMap) (map_obj cyclicMap)).
Definition test4 : bool :=
  (getSize comm >? 1) && isSameAs (map_obj contigMap) (map_obj cyclicMap).

Definition assertions_pass : bool :=
  negb test1 && negb test2 && negb test3 && negb test4.

Definition msg1 : string := "The supposedly contiguous Map isn't contiguous.".
Definition msg2 : string := "The cyclic Map claims to be contiguous.".
Definition msg34 : string :=
  "contigMap should be compatible with cyclicMap, but it's not.".

(** The events of each block of the routine. *)
Definition header_events : list event :=
  [ EOut out (Text (Tpetra_version E)); EOut out Endl; EOut out Endl;
    EOut out (Text "This is a test"); EOut out Endl;
    ESystem command; EOut out (IntValue (system_status E command)) ].

Definition map_events : list event :=
  [ ENewContiguousMap 0 (numGlobalElements_of comm) 0;
    EIsContiguous 0;
    ENewMapFromList 1 (numGlobalElements_of comm)
      (elementList_of (getSize comm) (getRank comm)) 0 ]
  ++ (if getSize comm >? 1 then [EIsContiguous 1] else [])
  ++ [ EIsCompatible 0 1 ]
  ++ (if getSize comm >? 1 then [EIsSameAs 0 1] else []).

Definition vector_events : list event :=
  [ ENewVector 0 0 true; ECopyVector 1 0; ENewVector 2 0 false; ERandomize 2 ].

Definition arithmetic_events : list event :=
  [ EPutScalar 0 1%float; EUpdate 0 alpha 2 beta;
    EPutScalar 1 42%float; EUpdate2 1 alpha 0 beta 2 gamma ].

(** The entries of the three vectors, as the calls produce them. *)
Definition zeros : list (list (option float)) :=
  VectorData.allocate true (localSizes (map_obj contigMap)).

Definition z_data : list (list (option float)) :=
  VectorData.randomize E 0
    (VectorData.allocate false (localSizes (map_obj contigMap))).

Definition x_data : list (list (option float)) :=
  VectorData.update alpha z_data beta (VectorData.putScalar 1%float zeros).

Definition y_data : list (list (option float)) :=
  VectorData.update2 alpha x_data beta z_data gamma
    (VectorData.putScalar 42%float zeros).

Definition norm_events : list event :=
  [ ENorm2 1; EOut out (Text "Norm of y: ");
    EOut out (Magnitude (VectorData.norm2 y_data)); EOut out Endl;
    EOut out (Text "This is my new Code!"); EOut out Endl;
    ENorm2 0; EOut out (Text "Norm of x?: ");
    EOut out (Magnitude (VectorData.norm2 x_data)); EOut out Endl;
    ENorm2 2; EOut out (Text "Norm of z?: ");
    EOut out (Magnitude (VectorData.norm2 z_data)); EOut out Endl ].

(** The worlds between the blocks of the routine. *)
Definition world_after_header : world := mkWorld header_events 0 [] 0.

Definition world_after_maps : world :=
  mkWorld (header_events ++ map_events) 2 [] 0.

Definition world_after_vectors : world :=
  mkWorld (header_events ++ map_events ++ vector_events) 2
    [ mkVector contigMap zeros; mkVector contigMap zeros;
      mkVector contigMap z_data ] 1.

Definition world_after_arithmetic : world :=
  mkWorld (header_events ++ map_events ++ vector_events ++ arithmetic_events) 2
    [ mkVector contigMap x_data; mkVector contigMap y_data;
      mkVector contigMap z_data ] 1.

Definition final_world : world :=
  mkWorld (header_events ++ map_events ++ vector_events ++ arithmetic_events
             ++ norm_events) 2
    [ mkVector contigMap x_data; mkVector contigMap y_data;
      mkVector contigMap z_data ] 1.

(** Where [createMaps] ends: at the first assertion whose test holds, with
    the events up to that test, or after the last one. *)
Definition maps_outcome : outcome (map_ref * map_ref) * world :=
  if test1 then
    (Raised (logic_error msg1),
     mkWorld (header_events ++ take 2 map_events) 1 [] 0)
  else if test2 then
    (Raised (logic_error msg2),
     mkWorld (header_events ++ take 4 map_events) 2 [] 0)
  else if test3 then
    (Raised (logic_error msg34),
     mkWorld (header_events
                ++ take (if getSize comm >? 1 then 5 else 4) map_events) 2 [] 0)
  else if test4 then
    (Raised (logic_error msg34), mkWorld (header_events ++ map_events) 2 [] 0)
  else (Normal (contigMap, cyclicMap), world_after_maps).

Definition routine_outcome : outcome unit * world :=
  match maps_outcome with
  | (Normal _, _) => (Normal tt, final_world)
  | (Raised e, w) => (Raised e, w)
  end.

(** How [main] ends, read off the four tests. *)
Definition main_termination : termination :=
  if test1 then Terminated (logic_error msg1)
  else if test2 then Terminated (logic_error msg2)
  else if test3 then Terminated (logic_error msg34)
  else if test4 then Terminated (logic_error msg34)
  else Exit 0.

(** The numbers [randomize] puts into [z], as plain numbers. *)
Definition z_values : list (list float) :=
  imap (fun rank n => (fun i => random_value E 0 rank i) <$> seq 0 n)
    (localSizes (map_obj contigMap)).

End RunDefinitions.

(** ** The vector [beta*ones + alpha*z], computed without any vector call *)

(** Ones, in the shape of [zs]. *)
Definition ones_like (zs : list (list float)) : list (list float) :=
  (fun row : list float => (fun _ : float => 1%float) <$> row) <$> zs.

(** [b*xs + a*zs] on plain numbers. *)
Definition scaled_sum (b : float) (xs : list (list float)) (a : float)
    (zs : list (list float)) : list (list float) :=
  zip_with (zip_with (fun x z => (b * x + a * z)%float)) xs zs.

(** The 2-norm of plain numbers: squares added up rank by rank. *)
Definition norm2_of_values (d : list (list float)) : float :=
  PrimFloat.sqrt
    (foldl (fun s row => (s + foldl (fun t x => (t + x * x)%float) 0%float row)%float)
       0%float d).

(** Plain numbers as the entries of a vector, all of them written. *)
Definition initialized (d : list (list float)) : list (list (option float)) :=
  (fun row : list float => Some <$> row) <$> d.

(** The Maps of the vectors in the store, by handle. *)
Definition maps_of {ML : MapLibrary} (w : world) : list map_ref :=
  getMap <$> w_vectors w.

(** ** Reading a trace *)

Definition is_system (e : event) : bool :=
  match e with ESystem _ => true | _ => false end.

Definition is_map_construction (e : event) : bool :=
  match e with
  | ENewContiguousMap _ _ _ | ENewMapFromList _ _ _ _ => true
  | _ => false
  end.

Definition is_vector_construction (e : event) : bool :=
  match e with ENewVector _ _ _ | ECopyVector _ _ => true | _ => false end.

(** The event names the Map with number [m]. *)
Definition names_map (m : nat) (e : event) : bool :=
  match e with
  | ENewContiguousMap m' _ _ | ENewMapFromList m' _ _ _ | EIsContiguous m'
  | ENewVector _ m' _ => bool_decide (m = m')
  | EIsCompatible m1 m2 | EIsSameAs m1 m2 =>
      bool_decide (m = m1) || bool_decide (m = m2)
  | _ => false
  end.

(** The trace with the printed integer blotted out. *)
Definition hide_status (e : event) : event :=
  match e with
  | EOut o (IntValue _) => EOut o (IntValue 0)
  | _ => e
  end.

(** The same environment, with another answer of the shell. *)
Definition with_status (E : environment) (status : string -> Z) : environment :=
  mkEnv (Tpetra_version E) status (random_value E).

Definition is_norm2 (e : event) : bool :=
  match e with ENorm2 _ => true | _ => false end.

Definition is_isSameAs (e : event) : bool :=
  match e with EIsSameAs _ _ => true | _ => false end.

(** An environment to run the routine in: a version string, a shell that
    reports success, and a generator that alternates between two values. *)
Definition sample_environment : environment :=
  mkEnv "Tpetra in Trilinos" (fun _ => 0)
    (fun _ rank i => if Nat.even (rank + i) then 0.5%float else (-0.25)%float).

(** The stream [main] passes on. *)
Definition stream_of (comm : Comm) : ostream :=
  if getRank comm =? 0 then std_cout else blackHole.

(** ** More ways to read a run *)

(** The tokens a trace writes to the stream [o], in order. *)
Definition written_to (o : ostream) (trace : list event) : list token :=
  omap (fun e =>
          match e, o with
          | EOut std_cout t, std_cout | EOut blackHole t, blackHole => Some t
          | _, _ => None
          end) trace.

(** The event is a call on a vector. *)
Definition is_vector_event (e : event) : bool :=
  match e with
  | ENewVector _ _ _ | ECopyVector _ _ | ERandomize _ | EPutScalar _ _
  | EUpdate _ _ _ _ | EUpdate2 _ _ _ _ _ _ | ENorm2 _ => true
  | _ => false
  end.

(** The norms among the tokens. *)
Definition magnitudes (ts : list token) : list (option float) :=
  omap (fun t => match t with Magnitude m => Some m | _ => None end) ts.

(** [c], in the shape of [zs]. *)
Definition constant_like (c : float) (zs : list (list float)) : list (list float) :=
  (fun row : list float => (fun _ : float => c) <$> row) <$> zs.

(** [c*ys + a*xs + b*zs] on plain numbers. *)
Definition scaled_sum3 (c : float) (ys : list (list float)) (a : float)
    (xs : list (list float)) (b : float) (zs : list (list float))
    : list (list float) :=
  zip_with (fun yx z_row =>
              zip_with (fun yx z => (c * yx.1 + a * yx.2 + b * z)%float) yx z_row)
    (zip_with zip ys xs) zs.

(** The Maps of the specification with other answers to [isContiguous] and
    [isSameAs]: a library on which an assertion of the routine can fail. *)
Definition library_with (contiguous : TpetraMap.t -> bool)
    (same : TpetraMap.t -> TpetraMap.t -> bool) : MapLibrary :=
  Build_MapLibrary TpetraMap.t TpetraMap.contiguous TpetraMap.from_list
    contiguous TpetraMap.isCompatible same TpetraMap.localSizes.

(** * Properties *)

(** ** Machine integers *)

Module MachineIntFacts.

Lemma int_wrap_id x : in_int x -> int_wrap x = x.
Proof.
  unfold in_int, INT_MAX, int_wrap, wrap_signed. intros H.
  change (2 ^ (32 - 1)) with 2147483648. change (2 ^ 32) with 4294967296.
  rewrite Z.mod_small; lia.
Qed.

Lemma long_wrap_id x : - 2 ^ 63 <= x < 2 ^ 63 -> long_wrap x = x.
Proof.
  unfold long_wrap, wrap_signed. intros H.
  change (2 ^ (64 - 1)) with (2 ^ 63) in *.
  change (2 ^ 64) with (2 * 2 ^ 63).
  rewrite Z.mod_small; lia.
Qed.

Lemma to_global_size_t_id x : 0 <= x < 2 ^ 64 -> to_global_size_t x = x.
Proof. intros H. unfold to_global_size_t. apply Z.mod_small; lia. Qed.

End MachineIntFacts.
Import MachineIntFacts.

(** ** The Maps of the specification *)

Module TpetraMapFacts.
Import TpetraMap.

Lemma ranks_cons comm :
  0 < getSize comm ->
  ranks comm = 0 :: (Z.of_nat <$> seq 1 (Z.to_nat (getSize comm) - 1)).
Proof.
  intros H. unfold ranks.
  destruct (Z.to_nat (getSize comm)) as [|n] eqn:Hn; [lia|].
  cbn. by rewrite Nat.sub_0_r.
Qed.

Lemma elem_of_ranks comm r : r ∈ ranks comm ↔ 0 <= r < getSize comm.
Proof.
  unfold ranks. rewrite list_elem_of_fmap. split.
  - intros (i & -> & Hi). apply elem_of_seq in Hi. lia.
  - intros H. exists (Z.to_nat r). split; [lia|]. apply elem_of_seq. lia.
Qed.

Lemma length_block s n : length (block s n) = n.
Proof. unfold block. by rewrite length_fmap, length_seq. Qed.

Lemma block_S s n : block s (S n) = s :: block (s + 1) n.
Proof.
  unfold block. cbn [seq]. rewrite fmap_cons, Z.add_0_r. f_equal.
  rewrite <- seq_shift, <- list_fmap_compose. apply list_fmap_ext.
  intros _ i _. cbn. lia.
Qed.

Lemma is_block_block s n : is_block (block s n) = true.
Proof.
  destruct n as [|n]; [reflexivity|].
  rewrite block_S. cbn [is_block length]. apply bool_decide_eq_true.
  by rewrite block_S, length_block.
Qed.

Lemma contiguous_isContiguous n base comm :
  isContiguous (contiguous n base comm) = true.
Proof.
  unfold isContiguous, contiguous. cbn [nodeElementLists].
  induction (ranks comm) as [|r rs IH]; [reflexivity|].
  rewrite fmap_cons. cbn [forallb]. by rewrite is_block_block, IH.
Qed.

Lemma length_fill_elementList fuel k n r P l :
  length (fill_elementList fuel k n r P l) = length l.
Proof.
  revert k l. induction fuel as [|fuel IH]; intros k l; [reflexivity|].
  cbn [fill_elementList]. destruct (k <? n); [|reflexivity].
  by rewrite IH, length_insert.
Qed.

Lemma length_elementList_of P r : length (elementList_of P r) = 5%nat.
Proof. unfold elementList_of. by rewrite length_fill_elementList. Qed.

Lemma elementList_of_cyclic P r :
  0 < P <= INT_MAX -> 0 <= r < P ->
  elementList_of P r = (fun k => r + k * P) <$> [0; 1; 2; 3; 4].
Proof.
  unfold INT_MAX. intros HP Hr.
  assert (Hw : forall k, 0 <= k <= 4 ->
             long_wrap (r + long_wrap (k * P)) = r + k * P).
  { intros k Hk. rewrite (long_wrap_id (k * P)) by nia.
    apply long_wrap_id. nia. }
  unfold elementList_of. change (Z.to_nat 5) with 5%nat.
  cbn [fill_elementList].
  change (long_wrap (0 + 1)) with 1. change (long_wrap (1 + 1)) with 2.
  change (long_wrap (2 + 1)) with 3. change (long_wrap (3 + 1)) with 4.
  rewrite !Hw by lia. reflexivity.
Qed.

Lemma cyclic_not_block P :
  1 < P <= INT_MAX -> is_block (elementList_of P 0) = false.
Proof.
  intros HP. rewrite elementList_of_cyclic by lia.
  cbn [fmap list_fmap is_block length]. apply bool_decide_eq_false.
  rewrite !block_S. intros Heq. injection Heq as _ H1 _. lia.
Qed.

Lemma from_list_not_contiguous n base comm :
  valid_comm comm -> 1 < getSize comm ->
  isContiguous (from_list n (elementList_of (getSize comm)) base comm) = false.
Proof.
  intros [HP Hr] H1. unfold isContiguous, from_list. cbn [nodeElementLists].
  rewrite ranks_cons, fmap_cons by lia. cbn [forallb].
  by rewrite cyclic_not_block by lia.
Qed.

Lemma uniform_count_even P r : 0 < P -> 0 <= r -> uniform_count (5 * P) P r = 5.
Proof.
  intros HP Hr. unfold uniform_count.
  rewrite Z.div_mul, Z.mod_mul by lia.
  destruct (r <? 0) eqn:Hlt; [apply Z.ltb_lt in Hlt|]; lia.
Qed.

Lemma contiguous_from_list_sizes comm base :
  valid_comm comm ->
  localSizes (contiguous (5 * getSize comm) base comm)
  = localSizes (from_list (5 * getSize comm) (elementList_of (getSize comm)) base comm).
Proof.
  intros [HP Hr]. unfold localSizes, contiguous, from_list. cbn [nodeElementLists].
  rewrite <- !list_fmap_compose. apply list_fmap_ext. intros i r Hin. cbn.
  apply list_elem_of_lookup_2, elem_of_ranks in Hin.
  rewrite length_block, length_elementList_of, uniform_count_even by lia.
  reflexivity.
Qed.

Lemma contiguous_from_list_compatible comm base :
  valid_comm comm ->
  isCompatible (contiguous (5 * getSize comm) base comm)
    (from_list (5 * getSize comm) (elementList_of (getSize comm)) base comm) = true
  /\ isCompatible
       (from_list (5 * getSize comm) (elementList_of (getSize comm)) base comm)
       (contiguous (5 * getSize comm) base comm) = true.
Proof.
  intros Hc. pose proof (contiguous_from_list_sizes comm base Hc) as Hs.
  unfold localSizes in Hs. unfold isCompatible.
  split; apply andb_true_intro; split; apply bool_decide_eq_true;
    first [reflexivity | exact Hs | symmetry; exact Hs].
Qed.

Lemma contiguous_from_list_differ n base comm :
  valid_comm comm -> 1 < getSize comm ->
  isSameAs (contiguous n base comm)
    (from_list n (elementList_of (getSize comm)) base comm) = false.
Proof.
  intros [HP Hr] H1. unfold isSameAs, contiguous, from_list.
  cbn [numGlobalElements nodeElementLists].
  apply andb_false_intro2, bool_decide_eq_false.
  rewrite ranks_cons, !fmap_cons by lia. intros Heq. injection Heq as H0 _.
  rewrite elementList_of_cyclic in H0 by lia. cbn [fmap list_fmap] in H0.
  pose proof (f_equal length H0) as Hlen. rewrite length_block in Hlen.
  cbn [length] in Hlen. rewrite Hlen, !block_S in H0.
  injection H0 as Ha Hb _. lia.
Qed.

Lemma numGlobalElements_of_small comm :
  0 < getSize comm <= 429496729 -> numGlobalElements_of comm = getSize comm * 5.
Proof.
  intros H. unfold numGlobalElements_of.
  rewrite int_wrap_id by (unfold in_int, INT_MAX; lia).
  apply to_global_size_t_id. lia.
Qed.

Lemma single_process_same r :
  isSameAs (contiguous (numGlobalElements_of (mkComm 1 r)) 0 (mkComm 1 r))
    (from_list (numGlobalElements_of (mkComm 1 r)) (elementList_of 1) 0 (mkComm 1 r))
  = true.
Proof. reflexivity. Qed.

End TpetraMapFacts.

(** ** Vector entries *)

Module VectorDataFacts.
Import VectorData.

Lemma entry_allocate zeroOut sizes rank i :
  entry (allocate zeroOut sizes) rank i =
  n ← sizes !! rank;
  if decide (i < n)%nat then Some (if zeroOut then Some 0%float else None) else None.
Proof.
  unfold entry, allocate. rewrite list_lookup_fmap.
  destruct (sizes !! rank) as [n|]; [cbn|reflexivity].
  case_decide.
  - by apply lookup_replicate_2.
  - apply lookup_replicate_None. lia.
Qed.

Lemma entry_randomize E call d rank i :
  entry (randomize E call d) rank i =
  (fun _ => Some (random_value E call rank i)) <$> entry d rank i.
Proof.
  unfold entry, randomize. rewrite list_lookup_imap.
  destruct (d !! rank) as [row|]; [cbn|reflexivity].
  by rewrite list_lookup_imap.
Qed.

Lemma entry_putScalar value d rank i :
  entry (putScalar value d) rank i = (fun _ => Some value) <$> entry d rank i.
Proof.
  unfold entry, putScalar. rewrite list_lookup_fmap.
  destruct (d !! rank) as [row|]; [cbn|reflexivity].
  by rewrite list_lookup_fmap.
Qed.

Lemma entry_update a A b this rank i :
  entry (update a A b this) rank i =
  x ← entry this rank i; y ← entry A rank i; Some (axpby a b x y).
Proof.
  unfold entry, update. rewrite lookup_zip_with.
  destruct (this !! rank) as [row|]; [cbn|reflexivity].
  destruct (A !! rank) as [rowA|]; cbn.
  - by rewrite lookup_zip_with.
  - by destruct (row !! i).
Qed.

Lemma entry_update2 a A b B c this rank i :
  entry (update2 a A b B c this) rank i =
  x ← entry this rank i; y ← entry A rank i; z ← entry B rank i;
  Some (axpbypcz a b c x y z).
Proof.
  unfold entry, update2. rewrite !lookup_zip_with.
  destruct (this !! rank) as [row|]; [cbn|reflexivity].
  destruct (A !! rank) as [rowA|]; cbn.
  - destruct (B !! rank) as [rowB|]; cbn.
    + rewrite !lookup_zip_with.
      destruct (row !! i); [cbn|reflexivity].
      destruct (rowA !! i); [cbn|reflexivity]. by destruct (rowB !! i).
    + destruct (row !! i); [cbn|reflexivity]. by destruct (rowA !! i).
  - by destruct (row !! i).
Qed.

Lemma sum_squares_initialized (t : float) (row : list float) :
  sum_squares (Some t) (Some <$> row)
  = Some (foldl (fun t x => (t + x * x)%float) t row).
Proof.
  revert t. induction row as [|x row IH]; intros t; [reflexivity|].
  cbn. apply IH.
Qed.

Lemma sum_ranks_initialized (s : float) (d : list (list float)) :
  foldl (fun s row => s' ← s; r ← sum_squares (Some 0%float) row; Some (s' + r)%float)
    (Some s) (initialized d)
  = Some (foldl (fun s row =>
                   (s + foldl (fun t x => (t + x * x)%float) 0%float row)%float) s d).
Proof.
  revert s. induction d as [|row d IH]; intros s; [reflexivity|].
  cbn. rewrite sum_squares_initialized. cbn. apply IH.
Qed.

Lemma norm2_initialized (d : list (list float)) :
  norm2 (initialized d) = Some (norm2_of_values d).
Proof. unfold norm2. by rewrite sum_ranks_initialized. Qed.

Lemma update_initialized a A b X :
  update a (initialized A) b (initialized X) = initialized (scaled_sum b X a A).
Proof.
  unfold update, initialized, scaled_sum.
  revert A. induction X as [|x X IH]; intros [|r A]; try reflexivity.
  cbn. f_equal; [|apply IH].
  clear. revert r. induction x as [|v x IH]; intros [|w r]; try reflexivity.
  cbn. f_equal. apply IH.
Qed.

End VectorDataFacts.

Section Monad.
Context {ML : MapLibrary}.

Lemma bind_run {A B : Type} (m : M A) (f : A -> M B) (w : world) :
  (m ≫= f) w =
  match m w with
  | (Normal a, w') => f a w'
  | (Raised e, w') => (Raised e, w')
  end.
Proof. reflexivity. Qed.

End Monad.

Section Run.

Context {ML : MapLibrary}.
Variable E : environment.
Variable comm : Comm.
Variable out : ostream.

(** The trace depends on the process count only through the two guarded
    queries, so a run is computed once the guard is decided. *)
Ltac by_running :=
  unfold world_after_maps, world_after_vectors, world_after_arithmetic,
    final_world, map_events;
  destruct (getSize comm >? 1); reflexivity.

Lemma printHeader_run :
  printHeader E out initial_world = (Normal tt, world_after_header E out).
Proof. reflexivity. Qed.

Lemma createMaps_run :
  createMaps comm (world_after_header E out) = maps_outcome E comm out.
Proof.
  unfold maps_outcome, test1, test2, test3, test4.
  cbv [createMaps Map_new_contiguous Map_new_from_list Map_isContiguous
       Map_isCompatible Map_isSameAs TEST_FOR_EXCEPTION and_then fresh_map
       emit raise mbind M_bind mret M_ret contigMap cyclicMap map_obj map_id
       world_after_header world_after_maps w_trace w_maps w_vectors
       w_randomize_calls].
  destruct (isContiguous (new_contiguous_map _ _ _)); cbn [negb]; [|reflexivity].
  unfold map_events.
  destruct (getSize comm >? 1); cbn [andb].
  - destruct (isContiguous (new_map_from_list _ _ _ _)); [reflexivity|].
    destruct (isCompatible _ _); cbn [negb]; [|reflexivity].
    destruct (isSameAs _ _); reflexivity.
  - destruct (isCompatible _ _); reflexivity.
Qed.

Lemma createVectors_run :
  createVectors E (contigMap comm) (world_after_maps E comm out)
  = (Normal (0, 1, 2)%nat, world_after_vectors E comm out).
Proof. by_running. Qed.

Lemma arithmetic_run :
  arithmetic 0 1 2 (world_after_vectors E comm out)
  = (Normal tt, world_after_arithmetic E comm out).
Proof. by_running. Qed.

Lemma printNorms_run :
  printNorms out 0 1 2 (world_after_arithmetic E comm out)
  = (Normal tt, final_world E comm out).
Proof. by_running. Qed.

Lemma exampleRoutine_run :
  exampleRoutine E comm out initial_world = routine_outcome E comm out.
Proof.
  unfold exampleRoutine, routine_outcome.
  rewrite bind_run, printHeader_run, bind_run, createMaps_run.
  unfold maps_outcome.
  destruct (test1 comm); [reflexivity|].
  destruct (test2 comm); [reflexivity|].
  destruct (test3 comm); [reflexivity|].
  destruct (test4 comm); [reflexivity|].
  rewrite bind_run. cbn [fst]. rewrite createVectors_run.
  rewrite bind_run. cbn [fst snd]. rewrite arithmetic_run.
  apply printNorms_run.
Qed.

Lemma exampleRoutine_completes :
  assertions_pass comm = true ->
  exampleRoutine E comm out initial_world = (Normal tt, final_world E comm out).
Proof.
  intros Hpass. rewrite exampleRoutine_run.
  unfold assertions_pass in Hpass. unfold routine_outcome, maps_outcome.
  destruct (test1 comm); [discriminate|].
  destruct (test2 comm); [discriminate|].
  destruct (test3 comm); [discriminate|].
  destruct (test4 comm); [discriminate|]. reflexivity.
Qed.

(** *** The entries of the vectors *)

Lemma z_data_values : z_data E comm = initialized (z_values E comm).
Proof.
  unfold z_data, z_values, initialized, VectorData.randomize, VectorData.allocate.
  apply list_eq. intros rank.
  rewrite list_lookup_imap, !list_lookup_fmap, list_lookup_imap.
  destruct (localSizes (map_obj (contigMap comm)) !! rank) as [n|];
    [cbn|reflexivity].
  f_equal. apply list_eq. intros i.
  rewrite list_lookup_imap, !list_lookup_fmap.
  destruct (decide (i < n)%nat) as [Hi|Hi].
  - by rewrite lookup_replicate_2, lookup_seq_lt.
  - rewrite lookup_seq_ge by lia.
    by rewrite (proj1 (lookup_replicate_None n None i)) by lia.
Qed.

Lemma ones_values :
  VectorData.putScalar 1%float (zeros comm) = initialized (ones_like (z_values E comm)).
Proof.
  unfold zeros, z_values, initialized, ones_like, VectorData.putScalar,
    VectorData.allocate.
  apply list_eq. intros rank.
  rewrite !list_lookup_fmap, list_lookup_imap.
  destruct (localSizes (map_obj (contigMap comm)) !! rank) as [n|];
    [cbn|reflexivity].
  f_equal. rewrite fmap_replicate. apply list_eq. intros i.
  rewrite !list_lookup_fmap.
  destruct (decide (i < n)%nat) as [Hi|Hi].
  - by rewrite lookup_replicate_2, lookup_seq_lt.
  - rewrite lookup_seq_ge by lia.
    by rewrite (proj1 (lookup_replicate_None n (Some 1%float) i)) by lia.
Qed.

Lemma x_data_values :
  x_data E comm
  = initialized (scaled_sum beta (ones_like (z_values E comm)) alpha (z_values E comm)).
Proof.
  unfold x_data. rewrite ones_values, z_data_values.
  apply VectorDataFacts.update_initialized.
Qed.

Lemma entries_of_run rank i zv :
  VectorData.entry (z_data E comm) rank i = Some (Some zv) ->
  zv = random_value E 0 rank i
  /\ VectorData.entry (x_data E comm) rank i
     = Some (Some (beta * 1 + alpha * zv)%float)
  /\ VectorData.entry (y_data E comm) rank i
     = Some (Some (gamma * 42 + alpha * (beta * 1 + alpha * zv) + beta * zv)%float).
Proof.
  intros Hz. unfold y_data.
  rewrite VectorDataFacts.entry_update2. unfold x_data.
  rewrite VectorDataFacts.entry_update, !VectorDataFacts.entry_putScalar, Hz.
  unfold z_data in Hz. rewrite VectorDataFacts.entry_randomize in Hz.
  unfold zeros. rewrite VectorDataFacts.entry_allocate in *.
  destruct (localSizes (map_obj (contigMap comm)) !! rank) as [n|];
    [cbn in *|discriminate].
  case_decide; [cbn in *|discriminate].
  split; [congruence|]. split; reflexivity.
Qed.

End Run.

(** ** The blocks of the routine, from any state

    Whatever the store holds, [createVectors] adds three vectors to it and
    touches no other; the arithmetic and the norms act on three distinct
    vectors of the store as the calls say. *)

Section Blocks.
Context {ML : MapLibrary}.
Variable E : environment.

Lemma createVectors_any_world (m : map_ref) (w : world) :
  let n := length (w_vectors w) in
  let sizes := localSizes (map_obj m) in
  createVectors E m w
  = (Normal (n, S n, S (S n)),
     mkWorld
       (w_trace w ++ [ ENewVector n (map_id m) true; ECopyVector (S n) n;
                       ENewVector (S (S n)) (map_id m) false;
                       ERandomize (S (S n)) ])
       (w_maps w)
       (w_vectors w
          ++ [ mkVector m (VectorData.allocate true sizes);
               mkVector m (VectorData.allocate true sizes);
               mkVector m (VectorData.randomize E (w_randomize_calls w)
                             (VectorData.allocate false sizes)) ])
       (S (w_randomize_calls w))).
Proof.
  destruct w as [tr nm vs calls]. cbv zeta. cbn [w_vectors w_trace w_maps w_randomize_calls].
  cbv [createVectors Vector_new Vector_copy Vector_randomize store_vector deref
       assign emit next_randomize_call mbind M_bind mret M_ret
       w_vectors w_trace w_maps w_randomize_calls].
  rewrite list_lookup_middle by reflexivity.
  cbv beta iota zeta. cbn [getMap localData].
  rewrite list_lookup_middle by reflexivity.
  cbv beta iota zeta. cbn [getMap localData].
  rewrite insert_app_r_alt, Nat.sub_diag by reflexivity.
  cbn [insert list_insert].
  rewrite !length_app. cbn [length].
  replace (length vs + 1 + 1)%nat with (S (S (length vs))) by lia.
  replace (length vs + 1)%nat with (S (length vs)) by lia.
  rewrite <- !app_assoc. reflexivity.
Qed.
Lemma arithmetic_any_world (x y z : nat) (vx vy vz : vector_type) (w : world) :
  x <> y -> x <> z -> y <> z ->
  w_vectors w !! x = Some vx ->
  w_vectors w !! y = Some vy ->
  w_vectors w !! z = Some vz ->
  let x_new :=
    VectorData.update alpha (localData vz) beta
      (VectorData.putScalar 1%float (localData vx)) in
  let y_new :=
    VectorData.update2 alpha x_new beta (localData vz) gamma
      (VectorData.putScalar 42%float (localData vy)) in
  arithmetic x y z w
  = (Normal tt,
     mkWorld
       (w_trace w ++ [ EPutScalar x 1%float; EUpdate x alpha z beta;
                       EPutScalar y 42%float; EUpdate2 y alpha x beta z gamma ])
       (w_maps w)
       (<[y := mkVector (getMap vy) y_new]>
          (<[x := mkVector (getMap vx) x_new]> (w_vectors w)))
       (w_randomize_calls w)).
Proof.
  intros Hxy Hxz Hyz Hx Hy Hz. destruct w as [tr nm vs calls].
  cbn [w_vectors w_trace w_maps w_randomize_calls] in *. cbv zeta.
  assert (Hlx : (x < length vs)%nat) by (by eapply lookup_lt_Some).
  assert (Hly : (y < length vs)%nat) by (by eapply lookup_lt_Some).
  cbv [arithmetic Vector_putScalar Vector_update Vector_update2 deref assign emit
       mbind M_bind mret M_ret w_vectors w_trace w_maps w_randomize_calls
       VectorData.scalar_one].
  rewrite Hx. cbv beta iota. cbn [getMap localData].
  rewrite list_lookup_insert_eq by done. cbv beta iota.
  rewrite list_lookup_insert_ne, Hz by done. cbv beta iota. cbn [getMap localData].
  rewrite list_insert_insert_eq.
  rewrite list_lookup_insert_ne, Hy by done. cbv beta iota. cbn [getMap localData].
  rewrite list_lookup_insert_eq by (by rewrite length_insert).
  cbv beta iota.
  rewrite list_lookup_insert_ne by done.
  rewrite list_lookup_insert_eq by done. cbv beta iota.
  rewrite list_lookup_insert_ne by done.
  rewrite list_lookup_insert_ne, Hz by done. cbv beta iota. cbn [getMap localData].
  rewrite list_insert_insert_eq.
  rewrite <- !app_assoc. reflexivity.
Qed.

Lemma printNorms_any_world (out : ostream) (x y z : nat) (vx vy vz : vector_type)
    (w : world) :
  w_vectors w !! x = Some vx ->
  w_vectors w !! y = Some vy ->
  w_vectors w !! z = Some vz ->
  printNorms out x y z w
  = (Normal tt,
     mkWorld
       (w_trace w
          ++ [ ENorm2 y; EOut out (Text "Norm of y: ");
               EOut out (Magnitude (VectorData.norm2 (localData vy)));
               EOut out Endl;
               EOut out (Text "This is my new Code!"); EOut out Endl;
               ENorm2 x; EOut out (Text "Norm of x?: ");
               EOut out (Magnitude (VectorData.norm2 (localData vx)));
               EOut out Endl;
               ENorm2 z; EOut out (Text "Norm of z?: ");
               EOut out (Magnitude (VectorData.norm2 (localData vz)));
               EOut out Endl ])
       (w_maps w) (w_vectors w) (w_randomize_calls w)).
Proof.
  intros Hx Hy Hz. destruct w as [tr nm vs calls].
  cbn [w_vectors w_trace w_maps w_randomize_calls] in *.
  cbv [printNorms Vector_norm2 write deref emit mbind M_bind mret M_ret
       w_vectors w_trace w_maps w_randomize_calls].
  rewrite Hy. cbv beta iota. rewrite Hx. cbv beta iota. rewrite Hz. cbv beta iota.
  rewrite <- !app_assoc. reflexivity.
Qed.

Lemma arithmetic_norms_any_world (out : ostream) (x y z : nat)
    (vx vy vz : vector_type) (w : world) :
  x <> y -> x <> z -> y <> z ->
  w_vectors w !! x = Some vx ->
  w_vectors w !! y = Some vy ->
  w_vectors w !! z = Some vz ->
  let x_new :=
    VectorData.update alpha (localData vz) beta
      (VectorData.putScalar 1%float (localData vx)) in
  let y_new :=
    VectorData.update2 alpha x_new beta (localData vz) gamma
      (VectorData.putScalar 42%float (localData vy)) in
  (arithmetic x y z ≫= fun _ => printNorms out x y z) w
  = (Normal tt,
     mkWorld
       (w_trace w
          ++ [ EPutScalar x 1%float; EUpdate x alpha z beta;
               EPutScalar y 42%float; EUpdate2 y alpha x beta z gamma;
               ENorm2 y; EOut out (Text "Norm of y: ");
               EOut out (Magnitude (VectorData.norm2 y_new)); EOut out Endl;
               EOut out (Text "This is my new Code!"); EOut out Endl;
               ENorm2 x; EOut out (Text "Norm of x?: ");
               EOut out (Magnitude (VectorData.norm2 x_new)); EOut out Endl;
               ENorm2 z; EOut out (Text "Norm of z?: ");
               EOut out (Magnitude (VectorData.norm2 (localData vz)));
               EOut out Endl ])
       (w_maps w)
       (<[y := mkVector (getMap vy) y_new]>
          (<[x := mkVector (getMap vx) x_new]> (w_vectors w)))
       (w_randomize_calls w)).
Proof.
  intros Hxy Hxz Hyz Hx Hy Hz. cbv zeta.
  assert (Hlx : (x < length (w_vectors w))%nat) by (by eapply lookup_lt_Some).
  assert (Hly : (y < length (w_vectors w))%nat) by (by eapply lookup_lt_Some).
  rewrite bind_run, (arithmetic_any_world x y z vx vy vz) by done.
  cbv zeta.
  set (x_new := VectorData.update alpha (localData vz) beta
                  (VectorData.putScalar 1%float (localData vx))).
  set (y_new := VectorData.update2 alpha x_new beta (localData vz) gamma
                  (VectorData.putScalar 42%float (localData vy))).
  rewrite (printNorms_any_world out x y z (mkVector (getMap vx) x_new)
             (mkVector (getMap vy) y_new) vz);
    cbn [w_vectors w_trace w_maps w_randomize_calls localData].
  - rewrite <- app_assoc. reflexivity.
  - rewrite list_lookup_insert_ne by done. by apply list_lookup_insert_eq.
  - apply list_lookup_insert_eq. by rewrite length_insert.
  - by rewrite !list_lookup_insert_ne.
Qed.

End Blocks.

(** ** Vector calls keep the Map of every vector *)

Section Invariant.
Context {ML : MapLibrary}.
Variable E : environment.

(** A call on a vector replaces the entries of an object and keeps its Map. *)
Ltac keep_maps :=
  cbv [Vector_randomize Vector_putScalar Vector_update Vector_update2 Vector_norm2
       mbind M_bind mret M_ret deref assign emit next_randomize_call];
  repeat match goal with
  | |- context [w_vectors ?w !! ?v] =>
      lazymatch goal with
      | H : w_vectors w !! v = _ |- _ => rewrite H
      | _ => destruct (w_vectors w !! v) eqn:?; [|reflexivity]
      end
  end;
  unfold maps_of; cbn [snd w_vectors getMap];
  rewrite ?list_fmap_insert; cbn [getMap];
  try (apply list_insert_id; rewrite list_lookup_fmap;
       match goal with H : _ !! _ = Some _ |- _ => by rewrite H end);
  try reflexivity.

Lemma Vector_randomize_maps v w :
  maps_of (Vector_randomize E v w).2 = maps_of w.
Proof. keep_maps. Qed.

Lemma Vector_putScalar_maps v value w :
  maps_of (Vector_putScalar v value w).2 = maps_of w.
Proof. keep_maps. Qed.

Lemma Vector_update_maps v a A b w :
  maps_of (Vector_update v a A b w).2 = maps_of w.
Proof. keep_maps. Qed.

Lemma Vector_update2_maps v a A b B c w :
  maps_of (Vector_update2 v a A b B c w).2 = maps_of w.
Proof. keep_maps. Qed.

Lemma Vector_norm2_maps v w : maps_of (Vector_norm2 v w).2 = maps_of w.
Proof. keep_maps. Qed.

Lemma bind_maps {A B : Type} (m : M A) (f : A -> M B) w :
  maps_of (m w).2 = maps_of w ->
  (forall a w', maps_of (f a w').2 = maps_of w') ->
  maps_of ((m ≫= f) w).2 = maps_of w.
Proof.
  intros Hm Hf. rewrite bind_run.
  destruct (m w) as [[a|e] w']; cbn [snd] in *; [rewrite Hf|]; done.
Qed.

Lemma arithmetic_maps x y z w : maps_of (arithmetic x y z w).2 = maps_of w.
Proof.
  unfold arithmetic.
  apply bind_maps; [apply Vector_putScalar_maps|intros _ w1].
  apply bind_maps; [apply Vector_update_maps|intros _ w2].
  apply bind_maps; [apply Vector_putScalar_maps|intros _ w3].
  apply Vector_update2_maps.
Qed.

Lemma printNorms_maps out x y z w : maps_of (printNorms out x y z w).2 = maps_of w.
Proof.
  unfold printNorms.
  repeat (apply bind_maps; [first [apply Vector_norm2_maps | reflexivity]|intros ? ?]).
  reflexivity.
Qed.

End Invariant.

(** ** The driver *)

Section Driver.

Context {ML : MapLibrary}.
Variable E : environment.
Variable comm : Comm.

Lemma main_run : (main E comm).1 = main_termination comm.
Proof.
  unfold main. rewrite exampleRoutine_run.
  unfold routine_outcome, maps_outcome, main_termination.
  by destruct (test1 comm), (test2 comm), (test3 comm), (test4 comm).
Qed.

Lemma main_exit_iff : (main E comm).1 = Exit 0 <-> assertions_pass comm = true.
Proof.
  rewrite main_run. unfold main_termination, assertions_pass.
  destruct (test1 comm), (test2 comm), (test3 comm), (test4 comm); cbn;
    split; first [done | discriminate].
Qed.

End Driver.

(** ** The run of the routine against any Map library *)

Section AnyLibrary.

Context {ML : MapLibrary}.
Variable E : environment.
Variable comm : Comm.
Variable out : ostream.

(** *** The shell command *)

(** C9: on every run, whatever the assertions find, the routine runs
    exactly one shell command, [echo helloooo!]; the call is the sixth event
    of the run, after five writes and before any Map is constructed; the
    status it returns is written to [out] right away; and nothing else
    depends on the status: with any other answer of the shell the routine ends
    the same way, with the same vectors and, the printed integer apart, the
    same trace. *)
Theorem shell_command_once :
  let run := exampleRoutine E comm out initial_world in
  List.filter is_system (w_trace run.2) = [ESystem "echo helloooo!"]
  /\ take 7 (w_trace run.2)
     = [ EOut out (Text (Tpetra_version E)); EOut out Endl; EOut out Endl;
         EOut out (Text "This is a test"); EOut out Endl;
         ESystem "echo helloooo!";
         EOut out (IntValue (system_status E "echo helloooo!")) ]
  /\ List.filter is_map_construction (take 7 (w_trace run.2)) = []
  /\ forall status : string -> Z,
       let run' := exampleRoutine (with_status E status) comm out initial_world in
       run'.1 = run.1
       /\ hide_status <$> w_trace run'.2 = hide_status <$> w_trace run.2
       /\ w_vectors run'.2 = w_vectors run.2.
Proof.
  cbv zeta. rewrite exampleRoutine_run.
  unfold routine_outcome, maps_outcome, final_world, world_after_maps, map_events.
  repeat split;
    try (rewrite exampleRoutine_run;
         unfold routine_outcome, maps_outcome, final_world, world_after_maps,
           map_events);
    destruct (test1 comm), (test2 comm), (test3 comm), (test4 comm),
      (getSize comm >? 1); reflexivity.
Qed.

(** *** How the process ends *)

(** C10: the exit code of a process whose routine completes is 0 and no
    other exit code is ever returned; the process ends abnormally, with the
    uncaught [std::logic_error] of the first assertion whose test holds,
    exactly when one of the four tests holds. *)
Theorem main_exit_code :
  (main E comm).1
  = (if test1 comm then
       Terminated (logic_error "The supposedly contiguous Map isn't contiguous.")
     else if test2 comm then
       Terminated (logic_error "The cyclic Map claims to be contiguous.")
     else if test3 comm then
       Terminated
         (logic_error "contigMap should be compatible with cyclicMap, but it's not.")
     else if test4 comm then
       Terminated
         (logic_error "contigMap should be compatible with cyclicMap, but it's not.")
     else Exit 0)
  /\ ((main E comm).1 = Exit 0
      \/ exists what, (main E comm).1 = Terminated (logic_error what))
  /\ ((main E comm).1 = Exit 0 <-> assertions_pass comm = true).
Proof.
  split; [apply main_run|]. split; [|apply main_exit_iff].
  rewrite main_run. unfold main_termination.
  destruct (test1 comm), (test2 comm), (test3 comm), (test4 comm);
    first [by left | right; eexists; reflexivity].
Qed.

(** *** The vectors *)

(** C6: when the assertions pass, [createMaps] hands over the two Maps and
    [createVectors] then allocates vectors 0, 1 and 2, that is [x], [y] and
    [z]: [x] over the contiguous Map with every entry zero, [y] as a copy of
    [x] with storage of its own (writing ones into [x] leaves [y] at zero),
    and [z] over the contiguous Map with no entry written, which [randomize]
    then fills.  From any state the block adds exactly these three vectors
    to the store, and they are the only vectors of the run. *)
Theorem three_vectors_allocated :
  assertions_pass comm = true ->
  (printHeader E out ≫= fun _ => createMaps comm) initial_world
  = (Normal (contigMap comm, cyclicMap comm), world_after_maps E comm out)
  /\ createVectors E (contigMap comm) (world_after_maps E comm out)
     = (Normal (0, 1, 2)%nat, world_after_vectors E comm out)
  /\ w_vectors (world_after_vectors E comm out)
     = [ mkVector (contigMap comm)
           (VectorData.allocate true (localSizes (map_obj (contigMap comm))));
         mkVector (contigMap comm)
           (VectorData.allocate true (localSizes (map_obj (contigMap comm))));
         mkVector (contigMap comm)
           (VectorData.randomize E 0
              (VectorData.allocate false (localSizes (map_obj (contigMap comm))))) ]
  /\ (forall w,
        w_vectors (createVectors E (contigMap comm) w).2
        = w_vectors w
          ++ [ mkVector (contigMap comm)
                 (VectorData.allocate true (localSizes (map_obj (contigMap comm))));
               mkVector (contigMap comm)
                 (VectorData.allocate true (localSizes (map_obj (contigMap comm))));
               mkVector (contigMap comm)
                 (VectorData.randomize E (w_randomize_calls w)
                    (VectorData.allocate false
                       (localSizes (map_obj (contigMap comm))))) ])
  /\ (forall rank i c,
        VectorData.entry
          (VectorData.allocate true (localSizes (map_obj (contigMap comm)))) rank i
        = Some c -> c = Some 0%float)
  /\ (forall rank i c,
        VectorData.entry
          (VectorData.allocate false (localSizes (map_obj (contigMap comm)))) rank i
        = Some c -> c = None)
  /\ (forall rank i c,
        VectorData.entry (z_data E comm) rank i = Some c ->
        c = Some (random_value E 0 rank i))
  /\ w_vectors (Vector_putScalar 0 1%float (world_after_vectors E comm out)).2 !! 1%nat
     = Some (mkVector (contigMap comm) (zeros comm))
  /\ exists w,
       exampleRoutine E comm out initial_world = (Normal tt, w)
       /\ List.filter is_vector_construction (w_trace w)
          = [ ENewVector 0 0 true; ECopyVector 1 0; ENewVector 2 0 false ]
       /\ length (w_vectors w) = 3%nat.
Proof.
  intros Hpass.
  split.
  { rewrite bind_run, printHeader_run, createMaps_run.
    unfold assertions_pass in Hpass. unfold maps_outcome.
    destruct (test1 comm); [discriminate|].
    destruct (test2 comm); [discriminate|].
    destruct (test3 comm); [discriminate|].
    destruct (test4 comm); [discriminate|]. reflexivity. }
  split; [apply createVectors_run|].
  split; [reflexivity|].
  split; [intros w; by rewrite createVectors_any_world|].
  split.
  { intros rank i c. rewrite VectorDataFacts.entry_allocate.
    destruct (_ !! rank); [cbn|discriminate]. case_decide; congruence. }
  split.
  { intros rank i c. rewrite VectorDataFacts.entry_allocate.
    destruct (_ !! rank); [cbn|discriminate]. case_decide; congruence. }
  split.
  { intros rank i c. unfold z_data. rewrite VectorDataFacts.entry_randomize.
    destruct (VectorData.entry _ rank i); cbn; congruence. }
  split; [reflexivity|].
  exists (final_world E comm out).
  split; [by apply exampleRoutine_completes|].
  split; [|reflexivity].
  unfold final_world, map_events. destruct (getSize comm >? 1); reflexivity.
Qed.

(** *** Arithmetic and norms *)

(** C1: from any state in which [x], [y] and [z] are three distinct vectors,
    the rest of the routine performs, in this order: every entry of [x] set
    to 1; [x] updated in place with [(alpha, z, beta)]; every entry of [y]
    set to 42; [y] updated in place with [(alpha, x, beta, z, gamma)]; the
    norm of [y] taken and printed, then that of [x], then that of [z]; no
    other vector changes.  The scalars are 3.14159, 2.71828 and -10.  When
    the assertions pass, the run of the routine ends with these steps on the
    vectors 0, 1 and 2 just built, and where [z] holds [zv] it leaves
    [beta*1 + alpha*zv] in [x] and
    [gamma*42 + alpha*(beta*1 + alpha*zv) + beta*zv] in [y]. *)
Theorem arithmetic_then_norms :
  (alpha = 3.14159%float /\ beta = 2.71828%float /\ gamma = (-10)%float)
  /\ (forall (x y z : nat) (vx vy vz : vector_type) (w : world),
        x <> y -> x <> z -> y <> z ->
        w_vectors w !! x = Some vx ->
        w_vectors w !! y = Some vy ->
        w_vectors w !! z = Some vz ->
        let x_new :=
          VectorData.update alpha (localData vz) beta
            (VectorData.putScalar 1%float (localData vx)) in
        let y_new :=
          VectorData.update2 alpha x_new beta (localData vz) gamma
            (VectorData.putScalar 42%float (localData vy)) in
        (arithmetic x y z ≫= fun _ => printNorms out x y z) w
        = (Normal tt,
           mkWorld
             (w_trace w
                ++ [ EPutScalar x 1%float; EUpdate x alpha z beta;
                     EPutScalar y 42%float; EUpdate2 y alpha x beta z gamma;
                     ENorm2 y; EOut out (Text "Norm of y: ");
                     EOut out (Magnitude (VectorData.norm2 y_new)); EOut out Endl;
                     EOut out (Text "This is my new Code!"); EOut out Endl;
                     ENorm2 x; EOut out (Text "Norm of x?: ");
                     EOut out (Magnitude (VectorData.norm2 x_new)); EOut out Endl;
                     ENorm2 z; EOut out (Text "Norm of z?: ");
                     EOut out (Magnitude (VectorData.norm2 (localData vz)));
                     EOut out Endl ])
             (w_maps w)
             (<[y := mkVector (getMap vy) y_new]>
                (<[x := mkVector (getMap vx) x_new]> (w_vectors w)))
             (w_randomize_calls w)))
  /\ (assertions_pass comm = true ->
      exampleRoutine E comm out initial_world
      = (arithmetic 0 1 2 ≫= fun _ => printNorms out 0 1 2)
          (world_after_vectors E comm out)
      /\ exampleRoutine E comm out initial_world
         = (Normal tt, final_world E comm out)
      /\ w_vectors (final_world E comm out)
         = [ mkVector (contigMap comm) (x_data E comm);
             mkVector (contigMap comm) (y_data E comm);
             mkVector (contigMap comm) (z_data E comm) ]
      /\ forall rank i zv,
           VectorData.entry (z_data E comm) rank i = Some (Some zv) ->
           VectorData.entry (x_data E comm) rank i
           = Some (Some (2.71828 * 1 + 3.14159 * zv)%float)
           /\ VectorData.entry (y_data E comm) rank i
              = Some (Some ((-10) * 42 + 3.14159 * (2.71828 * 1 + 3.14159 * zv)
                            + 2.71828 * zv)%float)).
Proof.
  split; [by repeat split|].
  split; [intros; by apply arithmetic_norms_any_world|].
  intros Hpass.
  assert (Hrun : exampleRoutine E comm out initial_world
                 = (Normal tt, final_world E comm out))
    by (by apply exampleRoutine_completes).
  split.
  { rewrite Hrun, bind_run, arithmetic_run. symmetry. apply printNorms_run. }
  split; [exact Hrun|]. split; [reflexivity|].
  intros rank i zv Hz. by destruct (entries_of_run E comm rank i zv Hz) as (_ & ? & ?).
Qed.

(** C7: when the assertions pass, the number printed as the norm of [x] is
    the 2-norm of the vector [beta*ones + alpha*z], computed from the numbers
    [randomize] put into [z] without going through any vector; the norm of
    [x] is taken once, between that of [y] and that of [z]. *)
Theorem norm_of_x_independent :
  assertions_pass comm = true ->
  let zs := z_values E comm in
  z_data E comm = initialized zs
  /\ VectorData.putScalar 1%float (zeros comm) = initialized (ones_like zs)
  /\ exists w before after,
       exampleRoutine E comm out initial_world = (Normal tt, w)
       /\ w_vectors w !! 0%nat
          = Some (mkVector (contigMap comm)
                    (initialized (scaled_sum beta (ones_like zs) alpha zs)))
       /\ w_trace w
          = before
            ++ [ ENorm2 0; EOut out (Text "Norm of x?: ");
                 EOut out (Magnitude
                   (Some (norm2_of_values (scaled_sum beta (ones_like zs) alpha zs))));
                 EOut out Endl ]
            ++ after
       /\ List.filter is_norm2 before = [ENorm2 1]
       /\ List.filter is_norm2 after = [ENorm2 2].
Proof.
  intros Hpass. cbv zeta.
  split; [apply z_data_values|]. split; [apply ones_values|].
  exists (final_world E comm out),
    (header_events E out ++ map_events comm ++ vector_events ++ arithmetic_events
       ++ take 6 (norm_events E comm out)),
    (drop 10 (norm_events E comm out)).
  split; [by apply exampleRoutine_completes|].
  split; [cbn; by rewrite x_data_values|].
  split.
  { unfold final_world, norm_events. cbn [w_trace take drop].
    rewrite <- VectorDataFacts.norm2_initialized, <- x_data_values.
    unfold map_events. destruct (getSize comm >? 1); reflexivity. }
  split; [|reflexivity].
  unfold map_events. destruct (getSize comm >? 1); reflexivity.
Qed.

(** *** The Maps behind the vectors *)

(** C8: when the assertions pass, every vector of the run is built over the
    contiguous Map, which is Map 0 while the cyclic Map is Map 1; the
    arithmetic and the norms never change the Map of a vector; no event after
    the assertions names Map 1; and in the state each of the two updates
    starts from, the vector updated and the vectors added to it all carry
    the contiguous Map. *)
Theorem vectors_share_contigMap :
  assertions_pass comm = true ->
  exampleRoutine E comm out initial_world = (Normal tt, final_world E comm out)
  /\ map_id (contigMap comm) = 0%nat /\ map_id (cyclicMap comm) = 1%nat
  /\ maps_of (world_after_vectors E comm out)
     = [contigMap comm; contigMap comm; contigMap comm]
  /\ (forall x y z w,
        maps_of (arithmetic x y z w).2 = maps_of w
        /\ maps_of (printNorms out x y z w).2 = maps_of w)
  /\ maps_of (final_world E comm out)
     = [contigMap comm; contigMap comm; contigMap comm]
  /\ (exists later,
        w_trace (final_world E comm out)
        = header_events E out ++ map_events comm ++ later
        /\ existsb (names_map 1) later = false
        /\ List.filter is_vector_construction later
           = [ ENewVector 0 0 true; ECopyVector 1 0; ENewVector 2 0 false ])
  /\ exists w1 w2 w3,
       Vector_putScalar 0 1%float (world_after_vectors E comm out) = (Normal tt, w1)
       /\ Vector_update 0 alpha 2 beta w1 = (Normal tt, w2)
       /\ Vector_putScalar 1 42%float w2 = (Normal tt, w3)
       /\ Vector_update2 1 alpha 0 beta 2 gamma w3
          = (Normal tt, world_after_arithmetic E comm out)
       /\ getMap <$> w_vectors w1 !! 0%nat = Some (contigMap comm)
       /\ getMap <$> w_vectors w1 !! 2%nat = Some (contigMap comm)
       /\ getMap <$> w_vectors w3 !! 1%nat = Some (contigMap comm)
       /\ getMap <$> w_vectors w3 !! 0%nat = Some (contigMap comm)
       /\ getMap <$> w_vectors w3 !! 2%nat = Some (contigMap comm).
Proof.
  intros Hpass.
  split; [by apply exampleRoutine_completes|].
  split; [reflexivity|]. split; [reflexivity|].
  split; [reflexivity|].
  split; [intros x y z w; split; [apply arithmetic_maps|apply printNorms_maps]|].
  split; [reflexivity|].
  split.
  { exists (vector_events ++ arithmetic_events ++ norm_events E comm out).
    by repeat split. }
  eexists _, _, _.
  split; [reflexivity|]. split; [reflexivity|]. split; [reflexivity|].
  split; [|by repeat split].
  unfold world_after_vectors, world_after_arithmetic, map_events.
  destruct (getSize comm >? 1); reflexivity.
Qed.

End AnyLibrary.

(** ** A run on two processes *)

Section TwoProcesses.

#[local] Existing Instance TpetraMap.library.

(** The routine run on rank 0 of two processes, against the Maps of the
    specification: the assertions pass. *)
Example two_processes_pass :
  assertions_pass (ML := TpetraMap.library) (mkComm 2 0) = true.
Proof. reflexivity. Qed.

Lemma three_vectors_allocated_witness :
  assertions_pass (ML := TpetraMap.library) (mkComm 2 0) = true
  /\ createVectors (ML := TpetraMap.library) sample_environment
       (contigMap (mkComm 2 0))
       (world_after_maps sample_environment (mkComm 2 0) std_cout)
     = (Normal (0, 1, 2)%nat,
        world_after_vectors sample_environment (mkComm 2 0) std_cout).
Proof.
  split; [reflexivity|].
  exact (proj1 (proj2 (three_vectors_allocated (ML := TpetraMap.library)
                         sample_environment (mkComm 2 0) std_cout eq_refl))).
Defined.

Lemma arithmetic_then_norms_witness :
  assertions_pass (ML := TpetraMap.library) (mkComm 2 0) = true
  /\ exampleRoutine (ML := TpetraMap.library) sample_environment (mkComm 2 0)
       std_cout initial_world
     = (Normal tt, final_world sample_environment (mkComm 2 0) std_cout)
  /\ (0 <> 1 /\ 0 <> 2 /\ 1 <> 2)%nat
  /\ (arithmetic (ML := TpetraMap.library) 0 1 2
        ≫= fun _ => printNorms std_cout 0 1 2)
       (world_after_vectors sample_environment (mkComm 2 0) std_cout)
     = (Normal tt, final_world sample_environment (mkComm 2 0) std_cout).
Proof.
  pose proof (arithmetic_then_norms (ML := TpetraMap.library) sample_environment
                (mkComm 2 0) std_cout) as (_ & Hany & Hrun).
  split; [reflexivity|].
  split; [exact (proj1 (proj2 (Hrun eq_refl)))|].
  split; [repeat split; discriminate|].
  rewrite (Hany 0%nat 1%nat 2%nat
             (mkVector (contigMap (mkComm 2 0)) (zeros (mkComm 2 0)))
             (mkVector (contigMap (mkComm 2 0)) (zeros (mkComm 2 0)))
             (mkVector (contigMap (mkComm 2 0))
                (z_data sample_environment (mkComm 2 0)))
             (world_after_vectors sample_environment (mkComm 2 0) std_cout));
    first [reflexivity | discriminate].
Defined.

Lemma norm_of_x_independent_witness :
  assertions_pass (ML := TpetraMap.library) (mkComm 2 0) = true
  /\ z_data (ML := TpetraMap.library) sample_environment (mkComm 2 0)
     = initialized
         (z_values (ML := TpetraMap.library) sample_environment (mkComm 2 0)).
Proof.
  split; [reflexivity|].
  exact (proj1 (norm_of_x_independent (ML := TpetraMap.library) sample_environment
                  (mkComm 2 0) std_cout eq_refl)).
Defined.

Lemma vectors_share_contigMap_witness :
  assertions_pass (ML := TpetraMap.library) (mkComm 2 0) = true
  /\ exampleRoutine (ML := TpetraMap.library) sample_environment (mkComm 2 0)
       std_cout initial_world
     = (Normal tt, final_world sample_environment (mkComm 2 0) std_cout).
Proof.
  split; [reflexivity|].
  exact (proj1 (vectors_share_contigMap (ML := TpetraMap.library) sample_environment
                  (mkComm 2 0) std_cout eq_refl)).
Defined.

(** The printed norms of that run. *)
Example two_processes_output :
  List.filter (fun e => match e with EOut std_cout (Magnitude _) => true | _ => false end)
    (w_trace (main (ML := TpetraMap.library) sample_environment (mkComm 2 0)).2)
  = [ EOut std_cout (Magnitude (Some 1296.2618083846999%float));
      EOut std_cout (Magnitude (Some 10.519553011994201%float));
      EOut std_cout (Magnitude (Some 1.25%float)) ].
Proof. vm_compute. reflexivity. Qed.

(** A Map library that keeps no record of contiguity, and so answers no to
    [isContiguous]: the first assertion stops the process. *)
Example first_assertion_terminates :
  (main (ML := Build_MapLibrary TpetraMap.t TpetraMap.contiguous TpetraMap.from_list
                 (fun _ => false) TpetraMap.isCompatible TpetraMap.isSameAs
                 TpetraMap.localSizes)
     sample_environment (mkComm 2 0)).1
  = Terminated (logic_error "The supposedly contiguous Map isn't contiguous.").
Proof. reflexivity. Qed.

End TwoProcesses.

(** ** The run against the Maps of the specification *)

Section SpecifiedMaps.

#[local] Existing Instance TpetraMap.library.

Variable comm : Comm.

Lemma test1_false : test1 comm = false.
Proof.
  unfold test1. cbn [map_obj contigMap].
  apply negb_false_iff, TpetraMapFacts.contiguous_isContiguous.
Qed.

Lemma test2_false : valid_comm comm -> test2 comm = false.
Proof.
  intros Hc. unfold test2. destruct (getSize comm >? 1) eqn:HP; [|reflexivity].
  cbn [andb map_obj cyclicMap].
  apply TpetraMapFacts.from_list_not_contiguous; [done|lia].
Qed.

Lemma test3_false :
  valid_comm comm -> numGlobalElements_of comm = 5 * getSize comm ->
  test3 comm = false.
Proof.
  intros Hc Hn. unfold test3. cbn [map_obj contigMap cyclicMap]. rewrite Hn.
  apply negb_false_iff.
  apply (TpetraMapFacts.contiguous_from_list_compatible comm indexBase Hc).
Qed.

Lemma test4_false : valid_comm comm -> test4 comm = false.
Proof.
  intros Hc. unfold test4. destruct (getSize comm >? 1) eqn:HP; [|reflexivity].
  cbn [andb map_obj contigMap cyclicMap].
  apply TpetraMapFacts.contiguous_from_list_differ; [done|lia].
Qed.

Lemma assertions_pass_specified :
  valid_comm comm -> numGlobalElements_of comm = 5 * getSize comm ->
  assertions_pass comm = true.
Proof.
  intros Hc Hn. unfold assertions_pass.
  by rewrite test1_false, test2_false, test3_false, test4_false.
Qed.

(** With a process count whose fivefold fits an [int], the process returns
    0 and leaves the final world of a complete run. *)
Lemma specified_run_completes (E : environment) :
  valid_comm comm -> getSize comm <= 429496729 ->
  main E comm = (Exit 0, final_world E comm (stream_of comm)).
Proof.
  intros Hc HP. pose proof Hc as [HP' _].
  assert (Hpass : assertions_pass comm = true).
  { apply assertions_pass_specified; [done|].
    rewrite TpetraMapFacts.numGlobalElements_of_small by lia. lia. }
  unfold main. fold (stream_of comm).
  by rewrite exampleRoutine_completes.
Qed.

(** X1: a process count whose fivefold fits an [int] gives
    [numGlobalElements = P * 5]; for every process count the first Map is
    the contiguous Map over [numGlobalElements] elements with index base 0,
    built and asked right after the header; it reports itself contiguous, the
    test of the first assertion is false and [main] never ends with the
    error of that assertion. *)
Theorem contiguous_map_built (E : environment) :
  (0 < getSize comm <= 429496729 -> numGlobalElements_of comm = getSize comm * 5)
  /\ map_obj (contigMap comm)
     = TpetraMap.contiguous (numGlobalElements_of comm) 0 comm
  /\ (exists rest,
       w_trace (main E comm).2
       = header_events E (stream_of comm)
         ++ ENewContiguousMap 0 (numGlobalElements_of comm) 0
            :: EIsContiguous 0 :: rest)
  /\ isContiguous (map_obj (contigMap comm)) = true
  /\ test1 comm = false
  /\ (main E comm).1
     <> Terminated (logic_error "The supposedly contiguous Map isn't contiguous.").
Proof.
  split; [apply TpetraMapFacts.numGlobalElements_of_small|].
  split; [reflexivity|].
  pose proof test1_false as H1.
  split.
  { unfold main. fold (stream_of comm). rewrite exampleRoutine_run.
    unfold routine_outcome, maps_outcome, final_world, world_after_maps, map_events.
    rewrite H1.
    destruct (test2 comm), (test3 comm), (test4 comm), (getSize comm >? 1);
      eexists; reflexivity. }
  split; [by apply negb_false_iff|]. split; [done|].
  rewrite main_run. unfold main_termination. rewrite H1.
  destruct (test2 comm), (test3 comm), (test4 comm); discriminate.
Qed.

(** C3: on a communicator of the MPI runtime, rank [r] lists the global
    indices [r + k*P] for [k] from 0 to 4; the second Map is built from
    these lists; with more than one process it reports itself not
    contiguous; so the test of the second assertion is false and [main]
    never ends with the error of that assertion. *)
Theorem cyclic_map_not_contiguous :
  valid_comm comm ->
  (forall r, 0 <= r < getSize comm ->
     elementList_of (getSize comm) r
     = (fun k => r + k * getSize comm) <$> [0; 1; 2; 3; 4])
  /\ map_obj (cyclicMap comm)
     = TpetraMap.from_list (numGlobalElements_of comm)
         (elementList_of (getSize comm)) 0 comm
  /\ (1 < getSize comm -> isContiguous (map_obj (cyclicMap comm)) = false)
  /\ test2 comm = false
  /\ forall E,
       (main E comm).1
       <> Terminated (logic_error "The cyclic Map claims to be contiguous.").
Proof.
  intros Hc. pose proof Hc as [HP Hr].
  split; [intros r Hrange; by apply TpetraMapFacts.elementList_of_cyclic|].
  split; [reflexivity|].
  split; [intros H1; by apply TpetraMapFacts.from_list_not_contiguous|].
  pose proof (test2_false Hc) as H2. split; [done|].
  intros E. rewrite main_run. unfold main_termination. rewrite H2.
  destruct (test1 comm), (test3 comm), (test4 comm); discriminate.
Qed.

(** X10: on a communicator of the MPI runtime, the contiguous Map and the
    cyclic Map over [5*P] elements are compatible, either way round; when
    the routine's element count is [5*P] (the process counts up to
    429496729) these are its two Maps, the test of the third assertion is
    false, and [main] returns 0. *)
Theorem contiguous_cyclic_compatible :
  valid_comm comm ->
  let P := getSize comm in
  isCompatible (TpetraMap.contiguous (5 * P) 0 comm)
    (TpetraMap.from_list (5 * P) (elementList_of P) 0 comm) = true
  /\ isCompatible (TpetraMap.from_list (5 * P) (elementList_of P) 0 comm)
       (TpetraMap.contiguous (5 * P) 0 comm) = true
  /\ (numGlobalElements_of comm = 5 * P ->
      map_obj (contigMap comm) = TpetraMap.contiguous (5 * P) 0 comm
      /\ map_obj (cyclicMap comm)
         = TpetraMap.from_list (5 * P) (elementList_of P) 0 comm
      /\ test3 comm = false
      /\ forall E, (main E comm).1 = Exit 0).
Proof.
  intros Hc P.
  destruct (TpetraMapFacts.contiguous_from_list_compatible comm 0 Hc) as [H12 H21].
  split; [exact H12|]. split; [exact H21|].
  intros Hn.
  split; [cbn [map_obj contigMap]; by rewrite Hn|].
  split; [cbn [map_obj cyclicMap]; by rewrite Hn|].
  split; [by apply test3_false|].
  intros E. apply main_exit_iff. by apply assertions_pass_specified.
Qed.

(** C5: on a communicator of the MPI runtime with more than one process the
    two Maps are not the same and the test of the fourth assertion is false;
    with one process the two Maps are the same, yet the test is false and
    [isSameAs] is not even called: the run contains no such query, and
    [main] returns 0. *)
Theorem contiguous_cyclic_not_same :
  valid_comm comm ->
  (1 < getSize comm ->
     isSameAs (map_obj (contigMap comm)) (map_obj (cyclicMap comm)) = false
     /\ test4 comm = false)
  /\ (getSize comm = 1 ->
      isSameAs (map_obj (contigMap comm)) (map_obj (cyclicMap comm)) = true
      /\ test4 comm = false
      /\ forall E,
           (main E comm).1 = Exit 0
           /\ List.filter is_isSameAs (w_trace (main E comm).2) = []).
Proof.
  intros Hc. pose proof Hc as [HP Hr].
  split.
  - intros H1. split; [|by apply test4_false].
    by apply TpetraMapFacts.contiguous_from_list_differ.
  - intros H1. destruct comm as [P r]. cbn in H1. subst P.
    split; [apply TpetraMapFacts.single_process_same|].
    split; [reflexivity|].
    intros E.
    assert (Hpass : assertions_pass (mkComm 1 r) = true) by reflexivity.
    split; [by apply main_exit_iff|].
    unfold main. rewrite exampleRoutine_completes by exact Hpass. reflexivity.
Qed.

End SpecifiedMaps.

(** The scenario of the specification: one process, five elements, both
    Maps [{0,1,2,3,4}] on rank 0; the fourth assertion does not ask. *)
Example single_process_run :
  numGlobalElements_of (mkComm 1 0) = 5
  /\ TpetraMap.nodeElementLists (TpetraMap.contiguous 5 0 (mkComm 1 0))
     = [[0; 1; 2; 3; 4]]
  /\ TpetraMap.nodeElementLists
       (TpetraMap.from_list 5 (elementList_of 1) 0 (mkComm 1 0))
     = [[0; 1; 2; 3; 4]]
  /\ (main (ML := TpetraMap.library) sample_environment (mkComm 1 0)).1 = Exit 0
  /\ List.filter (names_map 1)
       (w_trace (main (ML := TpetraMap.library) sample_environment (mkComm 1 0)).2)
     = [ ENewMapFromList 1 5 [0; 1; 2; 3; 4] 0; EIsCompatible 0 1 ].
Proof. repeat split. Qed.

(** C2: the element count is not [P * 5] for every process count.  With
    429496730 processes, the first count whose fivefold leaves the range of
    [int], the routine builds its Maps over 18446744071562067970 elements;
    with 858993460 processes it builds them over 4 elements, fewer than there
    are processes. *)
Theorem numGlobalElements_wraps :
  valid_comm (mkComm 429496730 0)
  /\ numGlobalElements_of (mkComm 429496730 0) = 18446744071562067970
  /\ numGlobalElements_of (mkComm 429496730 0) <> getSize (mkComm 429496730 0) * 5
  /\ valid_comm (mkComm 858993460 0)
  /\ numGlobalElements_of (mkComm 858993460 0) = 4.
Proof.
  split; [unfold valid_comm, INT_MAX; cbn; lia|].
  split; [reflexivity|].
  split; [vm_compute; discriminate|].
  split; [unfold valid_comm, INT_MAX; cbn; lia|reflexivity].
Qed.

Lemma contiguous_map_built_witness :
  0 < getSize (mkComm 3 1) <= 429496729
  /\ numGlobalElements_of (mkComm 3 1) = 15.
Proof.
  assert (H : 0 < getSize (mkComm 3 1) <= 429496729) by (cbn; lia).
  split; [exact H|].
  exact (proj1 (contiguous_map_built (mkComm 3 1) sample_environment) H).
Defined.

Lemma cyclic_map_not_contiguous_witness :
  valid_comm (mkComm 3 1)
  /\ elementList_of 3 1 = [1; 4; 7; 10; 13]
  /\ 1 < getSize (mkComm 3 1)
  /\ TpetraMap.isContiguous
       (TpetraMap.from_list 15 (elementList_of 3) 0 (mkComm 3 1)) = false
  /\ test2 (ML := TpetraMap.library) (mkComm 3 1) = false.
Proof.
  assert (H : valid_comm (mkComm 3 1)) by (unfold valid_comm, INT_MAX; cbn; lia).
  assert (H1 : 1 < getSize (mkComm 3 1)) by (cbn; lia).
  pose proof (cyclic_map_not_contiguous (mkComm 3 1) H) as (Hlist & _ & Hnot & H2 & _).
  split; [exact H|]. split; [apply (Hlist 1); cbn; lia|].
  split; [exact H1|]. split; [exact (Hnot H1)|exact H2].
Defined.

Lemma contiguous_cyclic_compatible_witness :
  valid_comm (mkComm 3 1)
  /\ TpetraMap.isCompatible (TpetraMap.contiguous 15 0 (mkComm 3 1))
       (TpetraMap.from_list 15 (elementList_of 3) 0 (mkComm 3 1)) = true
  /\ numGlobalElements_of (mkComm 3 1) = 5 * getSize (mkComm 3 1)
  /\ test3 (ML := TpetraMap.library) (mkComm 3 1) = false.
Proof.
  assert (H : valid_comm (mkComm 3 1)) by (unfold valid_comm, INT_MAX; cbn; lia).
  pose proof (contiguous_cyclic_compatible (mkComm 3 1) H) as (H12 & _ & Hrun).
  split; [exact H|]. split; [exact H12|]. split; [reflexivity|].
  exact (proj1 (proj2 (proj2 (Hrun eq_refl)))).
Defined.

Lemma contiguous_cyclic_not_same_witness :
  valid_comm (mkComm 3 1) /\ 1 < getSize (mkComm 3 1)
  /\ test4 (ML := TpetraMap.library) (mkComm 3 1) = false
  /\ valid_comm (mkComm 1 0) /\ getSize (mkComm 1 0) = 1
  /\ TpetraMap.isSameAs (TpetraMap.contiguous 5 0 (mkComm 1 0))
       (TpetraMap.from_list 5 (elementList_of 1) 0 (mkComm 1 0)) = true.
Proof.
  assert (H3 : valid_comm (mkComm 3 1)) by (unfold valid_comm, INT_MAX; cbn; lia).
  assert (H1 : valid_comm (mkComm 1 0)) by (unfold valid_comm, INT_MAX; cbn; lia).
  assert (Hmany : 1 < getSize (mkComm 3 1)) by (cbn; lia).
  split; [exact H3|]. split; [exact Hmany|].
  split; [exact (proj2 (proj1 (contiguous_cyclic_not_same (mkComm 3 1) H3) Hmany))|].
  split; [exact H1|]. split; [reflexivity|].
  exact (proj1 (proj2 (contiguous_cyclic_not_same (mkComm 1 0) H1) eq_refl)).
Defined.

(** * More of the code *)

(** ** The element lists and the element count *)

(** X2: the element lists of lines 156-162 make a Map that is one to one:
    for a process count in the range of [int], every index a rank lists lies
    in [0, 5*P), no rank lists an index twice, and an index of that range is
    listed by rank [r] exactly when [r] is its remainder modulo [P], so by
    one rank and no other. *)
Theorem cyclic_lists_partition (P : Z) :
  0 < P <= INT_MAX ->
  (forall r, 0 <= r < P ->
     Forall (fun g => 0 <= g < 5 * P) (elementList_of P r)
     /\ NoDup (elementList_of P r))
  /\ (forall g r, 0 <= g < 5 * P -> 0 <= r < P ->
        (g ∈ elementList_of P r <-> r = g mod P)).
Proof.
  intros HP. split.
  - intros r Hr. rewrite TpetraMapFacts.elementList_of_cyclic by done.
    cbn [fmap list_fmap]. split.
    + repeat (apply Forall_cons; split; [nia|]). apply Forall_nil_2.
    + repeat (apply NoDup_cons; split;
                [rewrite ?elem_of_cons, elem_of_nil; nia|]).
      apply NoDup_nil_2.
  - intros g r Hg Hr. rewrite TpetraMapFacts.elementList_of_cyclic by done.
    cbn [fmap list_fmap]. rewrite !elem_of_cons, elem_of_nil. split.
    + intros Hin.
      assert (Hk : exists k, 0 <= k /\ g = r + k * P).
      { destruct Hin as [->|[->|[->|[->|[->|[]]]]]];
          [exists 0|exists 1|exists 2|exists 3|exists 4]; lia. }
      destruct Hk as (k & Hk & ->).
      by rewrite Z.mod_add, Z.mod_small by lia.
    + intros ->.
      pose proof (Z.div_mod g P ltac:(lia)) as Hdm.
      pose proof (Z.mod_pos_bound g P ltac:(lia)) as Hm.
      assert (Hq : 0 <= g / P < 5) by (split; [apply Z.div_pos; lia|apply Z.div_lt_upper_bound; lia]).
      assert (Hc : g / P = 0 \/ g / P = 1 \/ g / P = 2 \/ g / P = 3 \/ g / P = 4) by lia.
      destruct Hc as [Hc|[Hc|[Hc|[Hc|Hc]]]]; rewrite Hc in Hdm; lia.
Qed.

(** X3: on a communicator of the MPI runtime the element count of line 120
    is a value of the unsigned 64-bit type, and it is [P * 5] exactly for the
    process counts up to 429496729. *)
Theorem numGlobalElements_exact_range (comm : Comm) :
  valid_comm comm ->
  0 <= numGlobalElements_of comm < 2 ^ 64
  /\ (numGlobalElements_of comm = getSize comm * 5 <-> getSize comm <= 429496729).
Proof.
  intros [[HP Hmax] _]. unfold INT_MAX in Hmax.
  split.
  { unfold numGlobalElements_of, to_global_size_t. apply Z.mod_pos_bound. lia. }
  split.
  - intros Heq. destruct (Z_le_gt_dec (getSize comm) 429496729) as [|Hbig]; [done|].
    exfalso. revert Heq.
    unfold numGlobalElements_of, to_global_size_t, int_wrap, wrap_signed.
    change (2 ^ (32 - 1)) with 2147483648. change (2 ^ 32) with 4294967296.
    change (2 ^ 64) with 18446744073709551616.
    Z.to_euclidean_division_equations. lia.
  - intros Hsmall. apply TpetraMapFacts.numGlobalElements_of_small. lia.
Qed.

(** ** Streams, failures and norms *)

Section MoreOfTheRun.

Context {ML : MapLibrary}.
Variable E : environment.
Variable comm : Comm.

(** Every way the routine can end: the four tests and the guard. *)
Ltac all_paths :=
  unfold routine_outcome, maps_outcome, final_world, world_after_maps, map_events;
  destruct (test1 comm), (test2 comm), (test3 comm), (test4 comm),
    (getSize comm >? 1); try discriminate; try reflexivity.

(** X4: the routine writes to the stream [main] hands it and to no other.
    On a rank other than 0 nothing reaches [std::cout], although the shell
    command is run there too; on rank 0 nothing goes to the black hole, and a
    complete run writes the version and two line ends, the test line, the
    status of the shell with no line end after it, and the three norms with
    their labels.  The stream changes neither the outcome nor the vectors nor
    the tokens written. *)
Theorem output_goes_to_the_stream_of_main :
  (getRank comm <> 0 ->
   written_to std_cout (w_trace (main E comm).2) = []
   /\ List.filter is_system (w_trace (main E comm).2)
      = [ESystem "echo helloooo!"])
  /\ (getRank comm = 0 -> written_to blackHole (w_trace (main E comm).2) = [])
  /\ (getRank comm = 0 -> assertions_pass comm = true ->
      written_to std_cout (w_trace (main E comm).2)
      = [ Text (Tpetra_version E); Endl; Endl; Text "This is a test"; Endl;
          IntValue (system_status E "echo helloooo!");
          Text "Norm of y: "; Magnitude (VectorData.norm2 (y_data E comm)); Endl;
          Text "This is my new Code!"; Endl;
          Text "Norm of x?: "; Magnitude (VectorData.norm2 (x_data E comm)); Endl;
          Text "Norm of z?: "; Magnitude (VectorData.norm2 (z_data E comm)); Endl ])
  /\ (forall out,
        (exampleRoutine E comm out initial_world).1
        = (exampleRoutine E comm std_cout initial_world).1
        /\ w_vectors (exampleRoutine E comm out initial_world).2
           = w_vectors (exampleRoutine E comm std_cout initial_world).2
        /\ written_to out (w_trace (exampleRoutine E comm out initial_world).2)
           = written_to std_cout
               (w_trace (exampleRoutine E comm std_cout initial_world).2)).
Proof.
  split; [|split; [|split]].
  - intros Hr. unfold main. apply Z.eqb_neq in Hr. rewrite Hr.
    rewrite exampleRoutine_run. split; all_paths.
  - intros Hr. unfold main. apply Z.eqb_eq in Hr. rewrite Hr.
    rewrite exampleRoutine_run. all_paths.
  - intros Hr Hpass. unfold main. apply Z.eqb_eq in Hr. rewrite Hr.
    rewrite exampleRoutine_completes by done.
    unfold final_world, map_events. destruct (getSize comm >? 1); reflexivity.
  - intros out. rewrite !exampleRoutine_run.
    destruct out; repeat split; all_paths.
Qed.


Variable out : ostream.

(** X5: when one of the four tests holds, the routine ends with a
    [std::logic_error] before any vector exists: the store is empty, the trace
    holds no call on a vector and no norm is written.  The header, with the
    shell command, has been executed all the same, and one Map has been built
    when the first assertion fails, two otherwise. *)
Theorem failed_assertion_before_any_vector :
  assertions_pass comm = false ->
  let run := exampleRoutine E comm out initial_world in
  (exists what, run.1 = Raised (logic_error what))
  /\ w_vectors run.2 = []
  /\ List.filter is_vector_event (w_trace run.2) = []
  /\ magnitudes (written_to out (w_trace run.2)) = []
  /\ take 7 (w_trace run.2) = header_events E out
  /\ w_maps run.2 = (if test1 comm then 1%nat else 2%nat)
  /\ List.filter is_map_construction (w_trace run.2)
     = take (w_maps run.2)
         [ ENewContiguousMap 0 (numGlobalElements_of comm) 0;
           ENewMapFromList 1 (numGlobalElements_of comm)
             (elementList_of (getSize comm) (getRank comm)) 0 ].
Proof.
  intros Hfail. cbv zeta. rewrite exampleRoutine_run. revert Hfail.
  unfold assertions_pass.
  destruct out; repeat split; revert Hfail; all_paths; intros _; eexists; reflexivity.
Qed.

(** X6: the third and the fourth assertion throw the same text (lines
    179-180 and 183-184).  When the first two pass and either of the others
    fails, the process ends with "contigMap should be compatible with
    cyclicMap, but it's not.", also when the Maps are compatible and it is
    [isSameAs] that answered yes. *)
Theorem same_message_for_two_assertions :
  test1 comm = false -> test2 comm = false ->
  (test3 comm = true \/ test4 comm = true) ->
  (main E comm).1
  = Terminated
      (logic_error "contigMap should be compatible with cyclicMap, but it's not.")
  /\ (test3 comm = false ->
      isCompatible (map_obj (contigMap comm)) (map_obj (cyclicMap comm)) = true).
Proof.
  intros H1 H2 H34. split.
  - rewrite main_run. unfold main_termination. rewrite H1, H2.
    destruct (test3 comm); [reflexivity|].
    destruct H34 as [?| ->]; [discriminate|reflexivity].
  - unfold test3. intros H. by apply negb_false_iff.
Qed.

(** X7: with one process and any Map library, the guards of lines 170 and
    181 switch the second and the fourth assertion off: the cyclic Map is
    never asked [isContiguous], [isSameAs] is never called, and the process
    can only end with the error of the first or of the third assertion, or
    return 0. *)
Theorem single_process_asks_less :
  getSize comm = 1 ->
  test2 comm = false /\ test4 comm = false
  /\ (main E comm).1
     = (if test1 comm then
          Terminated (logic_error "The supposedly contiguous Map isn't contiguous.")
        else if test3 comm then
          Terminated
            (logic_error "contigMap should be compatible with cyclicMap, but it's not.")
        else Exit 0)
  /\ List.filter is_isSameAs (w_trace (main E comm).2) = []
  /\ List.filter (fun e => match e with EIsContiguous 1 => true | _ => false end)
       (w_trace (main E comm).2) = [].
Proof.
  intros HP. assert (Hg : (getSize comm >? 1) = false) by (rewrite HP; reflexivity).
  assert (H2 : test2 comm = false) by (unfold test2; by rewrite Hg).
  assert (H4 : test4 comm = false) by (unfold test4; by rewrite Hg).
  split; [done|]. split; [done|]. split.
  { rewrite main_run. unfold main_termination. rewrite H2, H4.
    by destruct (test1 comm), (test3 comm). }
  unfold main. rewrite exampleRoutine_run.
  unfold routine_outcome, maps_outcome, final_world, world_after_maps, map_events.
  rewrite H2, H4, Hg. by destruct (test1 comm), (test3 comm).
Qed.


(** *** The entries of [y] *)

Lemma update2_initialized a A b B c Y :
  VectorData.update2 a (initialized A) b (initialized B) c (initialized Y)
  = initialized (scaled_sum3 c Y a A b B).
Proof.
  unfold VectorData.update2, initialized, scaled_sum3.
  revert A B. induction Y as [|y Y IH]; intros [|r A] [|s B]; cbn; try reflexivity.
  f_equal; [|apply IH].
  clear. revert r s.
  induction y as [|v y IH]; intros [|w r] [|u s]; cbn; try reflexivity.
  f_equal. apply IH.
Qed.

Lemma constant_values (c : float) :
  VectorData.putScalar c (zeros comm)
  = initialized (constant_like c (z_values E comm)).
Proof.
  unfold zeros, z_values, initialized, constant_like, VectorData.putScalar,
    VectorData.allocate.
  apply list_eq. intros rank.
  rewrite !list_lookup_fmap, list_lookup_imap.
  destruct (localSizes (map_obj (contigMap comm)) !! rank) as [n|];
    [cbn|reflexivity].
  f_equal. rewrite fmap_replicate. apply list_eq. intros i.
  rewrite !list_lookup_fmap.
  destruct (decide (i < n)%nat) as [Hi|Hi].
  - by rewrite lookup_replicate_2, lookup_seq_lt.
  - rewrite lookup_seq_ge by lia.
    by rewrite (proj1 (lookup_replicate_None n (Some c) i)) by lia.
Qed.

Lemma y_data_values :
  y_data E comm
  = initialized
      (scaled_sum3 gamma (constant_like 42%float (z_values E comm)) alpha
         (scaled_sum beta (ones_like (z_values E comm)) alpha (z_values E comm))
         beta (z_values E comm)).
Proof.
  unfold y_data. rewrite constant_values, x_data_values, z_data_values.
  apply update2_initialized.
Qed.

(** X8: when the assertions pass, the three norms written are numbers, none
    of them read from an entry that was never written, although [z] is
    allocated without initial values: the norm of [y] is that of
    [gamma*42 + alpha*x + beta*z], the norm of [x] that of
    [beta*1 + alpha*z] and the norm of [z] that of the random numbers, each
    computed on plain numbers without any vector call. *)
Theorem printed_norms_are_numbers :
  assertions_pass comm = true ->
  let zs := z_values E comm in
  let xs := scaled_sum beta (ones_like zs) alpha zs in
  let ys := scaled_sum3 gamma (constant_like 42%float zs) alpha xs beta zs in
  y_data E comm = initialized ys
  /\ magnitudes
       (written_to out (w_trace (exampleRoutine E comm out initial_world).2))
     = [ Some (norm2_of_values ys); Some (norm2_of_values xs);
         Some (norm2_of_values zs) ].
Proof.
  intros Hpass. cbv zeta. split; [apply y_data_values|].
  rewrite exampleRoutine_completes by done.
  transitivity [ VectorData.norm2 (y_data E comm); VectorData.norm2 (x_data E comm);
                 VectorData.norm2 (z_data E comm) ].
  { unfold final_world, map_events.
    destruct out, (getSize comm >? 1); reflexivity. }
  rewrite y_data_values, x_data_values, z_data_values.
  by rewrite !VectorDataFacts.norm2_initialized.
Qed.

End MoreOfTheRun.

(** ** The loop that fills the element list *)

Lemma fill_elementList_lookup fuel k n r P (l : list Z) (i : nat) :
  0 <= k <= n -> n < 2 ^ 63 -> (Z.to_nat (n - k) <= fuel)%nat ->
  length l = Z.to_nat n ->
  fill_elementList fuel k n r P l !! i
  = if bool_decide (Z.to_nat k <= i < Z.to_nat n)%nat
    then Some (long_wrap (r + long_wrap (Z.of_nat i * P)))
    else l !! i.
Proof.
  revert k l. induction fuel as [|fuel IH]; intros k l Hk Hn Hfuel Hlen.
  - cbn. case_bool_decide; [lia|reflexivity].
  - cbn [fill_elementList]. destruct (k <? n) eqn:Hlt.
    + apply Z.ltb_lt in Hlt.
      rewrite long_wrap_id by lia.
      rewrite IH by (rewrite ?length_insert; lia).
      destruct (decide (i = Z.to_nat k)) as [->|Hne].
      * rewrite list_lookup_insert_eq by (rewrite Hlen; lia).
        rewrite Z2Nat.id by lia.
        repeat case_bool_decide; first [reflexivity | lia].
      * rewrite list_lookup_insert_ne by done.
        repeat case_bool_decide; first [reflexivity | lia].
    + apply Z.ltb_ge in Hlt. case_bool_decide; [lia|reflexivity].
Qed.

(** X9: the loop of lines 161-162, for any number of elements per process:
    it keeps the length of the array, stores [myRank + k*numProcs] (in 64-bit
    arithmetic) at every index [k] below [numEltsPerProc] and writes nowhere
    else, and it is finished after [numEltsPerProc] rounds, so more rounds
    change nothing.  The routine's list is the case of five elements. *)
Theorem fill_elementList_fills (n r P : Z) :
  0 <= n < 2 ^ 63 ->
  let l := fill_elementList (Z.to_nat n) 0 n r P (replicate (Z.to_nat n) 0) in
  (n = 5 -> elementList_of P r = l)
  /\ length l = Z.to_nat n
  /\ (forall i, (i < Z.to_nat n)%nat ->
        l !! i = Some (long_wrap (r + long_wrap (Z.of_nat i * P))))
  /\ (forall fuel, (Z.to_nat n <= fuel)%nat ->
        fill_elementList fuel 0 n r P (replicate (Z.to_nat n) 0) = l).
Proof.
  intros Hn. cbv zeta.
  split; [by intros ->|].
  split; [by rewrite TpetraMapFacts.length_fill_elementList, length_replicate|].
  split.
  - intros i Hi. rewrite fill_elementList_lookup by (rewrite ?length_replicate; lia).
    case_bool_decide; [reflexivity|lia].
  - intros fuel Hfuel. apply list_eq. intros i.
    rewrite !fill_elementList_lookup by (rewrite ?length_replicate; lia).
    reflexivity.
Qed.

(** ** Runs that discharge the hypotheses above *)

Lemma cyclic_lists_partition_witness :
  0 < 3 <= INT_MAX /\ 0 <= 7 < 5 * 3 /\ 0 <= 1 < 3
  /\ 7 ∈ elementList_of 3 1 /\ NoDup (elementList_of 3 1).
Proof.
  assert (HP : 0 < 3 <= INT_MAX) by (unfold INT_MAX; lia).
  assert (Hg : 0 <= 7 < 5 * 3) by lia.
  assert (Hr : 0 <= 1 < 3) by lia.
  pose proof (cyclic_lists_partition 3 HP) as [Hlist Hiff].
  split; [exact HP|]. split; [exact Hg|]. split; [exact Hr|].
  split; [apply (Hiff 7 1 Hg Hr); reflexivity|exact (proj2 (Hlist 1 Hr))].
Defined.

Lemma numGlobalElements_exact_range_witness :
  valid_comm (mkComm 3 1) /\ 0 <= numGlobalElements_of (mkComm 3 1) < 2 ^ 64.
Proof.
  assert (H : valid_comm (mkComm 3 1)) by (unfold valid_comm, INT_MAX; cbn; lia).
  split; [exact H|]. exact (proj1 (numGlobalElements_exact_range (mkComm 3 1) H)).
Defined.

Lemma output_goes_to_the_stream_of_main_witness :
  getRank (mkComm 2 1) <> 0
  /\ written_to std_cout
       (w_trace (main (ML := TpetraMap.library) sample_environment (mkComm 2 1)).2)
     = []
  /\ getRank (mkComm 2 0) = 0
  /\ assertions_pass (ML := TpetraMap.library) (mkComm 2 0) = true
  /\ length (written_to std_cout
       (w_trace (main (ML := TpetraMap.library) sample_environment (mkComm 2 0)).2))
     = 17%nat.
Proof.
  assert (H1 : getRank (mkComm 2 1) <> 0) by (cbn; lia).
  pose proof (output_goes_to_the_stream_of_main (ML := TpetraMap.library)
                sample_environment (mkComm 2 1)) as (Hother & _).
  pose proof (output_goes_to_the_stream_of_main (ML := TpetraMap.library)
                sample_environment (mkComm 2 0)) as (_ & _ & Hzero & _).
  split; [exact H1|]. split; [exact (proj1 (Hother H1))|].
  split; [reflexivity|]. split; [reflexivity|].
  rewrite (Hzero eq_refl eq_refl). reflexivity.
Defined.

Lemma failed_assertion_before_any_vector_witness :
  assertions_pass (ML := library_with (fun _ => false) TpetraMap.isSameAs)
    (mkComm 2 0) = false
  /\ w_vectors
       (exampleRoutine (ML := library_with (fun _ => false) TpetraMap.isSameAs)
          sample_environment (mkComm 2 0) std_cout initial_world).2 = [].
Proof.
  split; [reflexivity|].
  exact (proj1 (proj2 (failed_assertion_before_any_vector
                         (ML := library_with (fun _ => false) TpetraMap.isSameAs)
                         sample_environment (mkComm 2 0) std_cout eq_refl))).
Defined.

Lemma same_message_for_two_assertions_witness :
  test1 (ML := library_with TpetraMap.isContiguous (fun _ _ => true)) (mkComm 2 0)
  = false
  /\ test2 (ML := library_with TpetraMap.isContiguous (fun _ _ => true)) (mkComm 2 0)
     = false
  /\ test3 (ML := library_with TpetraMap.isContiguous (fun _ _ => true)) (mkComm 2 0)
     = false
  /\ test4 (ML := library_with TpetraMap.isContiguous (fun _ _ => true)) (mkComm 2 0)
     = true
  /\ (main (ML := library_with TpetraMap.isContiguous (fun _ _ => true))
        sample_environment (mkComm 2 0)).1
     = Terminated
         (logic_error "contigMap should be compatible with cyclicMap, but it's not.").
Proof.
  split; [reflexivity|]. split; [reflexivity|]. split; [reflexivity|].
  split; [reflexivity|].
  exact (proj1 (same_message_for_two_assertions
                  (ML := library_with TpetraMap.isContiguous (fun _ _ => true))
                  sample_environment (mkComm 2 0) eq_refl eq_refl
                  (or_intror eq_refl))).
Defined.

Lemma single_process_asks_less_witness :
  getSize (mkComm 1 0) = 1
  /\ test4 (ML := TpetraMap.library) (mkComm 1 0) = false.
Proof.
  split; [reflexivity|].
  exact (proj1 (proj2 (single_process_asks_less (ML := TpetraMap.library)
                         sample_environment (mkComm 1 0) eq_refl))).
Defined.

Lemma printed_norms_are_numbers_witness :
  assertions_pass (ML := TpetraMap.library) (mkComm 2 0) = true
  /\ magnitudes
       (written_to std_cout
          (w_trace (exampleRoutine (ML := TpetraMap.library) sample_environment
                      (mkComm 2 0) std_cout initial_world).2))
     = [ Some 1296.2618083846999%float; Some 10.519553011994201%float;
         Some 1.25%float ].
Proof.
  split; [reflexivity|].
  rewrite (proj2 (printed_norms_are_numbers (ML := TpetraMap.library)
                    sample_environment (mkComm 2 0) std_cout eq_refl)).
  vm_compute. reflexivity.
Defined.

Lemma fill_elementList_fills_witness :
  0 <= 5 < 2 ^ 63
  /\ elementList_of 3 1 !! 2%nat = Some (long_wrap (1 + long_wrap (2 * 3))).
Proof.
  assert (H : 0 <= 5 < 2 ^ 63) by lia.
  pose proof (fill_elementList_fills 5 1 3 H) as (Hlist & _ & Hentry & _).
  split; [exact H|].
  rewrite (Hlist eq_refl). apply (Hentry 2%nat). cbn. lia.
Defined.

(** ** The third assertion beyond the range of [int]

    With more than 429496729 processes the product of line 120 leaves the
    range of [int]; the contiguous Map is then built over a count that is not
    [5*P], while every rank still lists five elements for the cyclic Map. *)

Section Overflow.

#[local] Existing Instance TpetraMap.library.

Variable comm : Comm.

Lemma numGlobalElements_of_large :
  valid_comm comm -> 429496729 < getSize comm ->
  0 <= numGlobalElements_of comm
  /\ (numGlobalElements_of comm < 4 * getSize comm
      \/ 5 * getSize comm < numGlobalElements_of comm).
Proof.
  intros [[HP Hmax] _] Hbig. unfold INT_MAX in Hmax.
  unfold numGlobalElements_of, to_global_size_t, int_wrap, wrap_signed.
  change (2 ^ (32 - 1)) with 2147483648. change (2 ^ 32) with 4294967296.
  change (2 ^ 64) with 18446744073709551616.
  Z.to_euclidean_division_equations. lia.
Qed.

Lemma uniform_count_large :
  valid_comm comm -> 429496729 < getSize comm ->
  TpetraMap.uniform_count (numGlobalElements_of comm) (getSize comm) 0 <> 5.
Proof.
  intros Hc Hbig. pose proof (numGlobalElements_of_large Hc Hbig) as [Hn0 Hn].
  destruct Hc as [[HP _] _].
  unfold TpetraMap.uniform_count.
  pose proof (Z.div_mod (numGlobalElements_of comm) (getSize comm) ltac:(lia)) as Hdm.
  pose proof (Z.mod_pos_bound (numGlobalElements_of comm) (getSize comm) ltac:(lia))
    as Hm.
  destruct (0 <? numGlobalElements_of comm mod getSize comm) eqn:Hpos;
    [apply Z.ltb_lt in Hpos|apply Z.ltb_ge in Hpos]; intros Heq.
  - assert (Hq : numGlobalElements_of comm / getSize comm = 4) by lia.
    rewrite Hq in Hdm. lia.
  - assert (Hq : numGlobalElements_of comm / getSize comm = 5) by lia.
    rewrite Hq in Hdm. lia.
Qed.

Lemma routine_maps_incompatible :
  valid_comm comm -> 429496729 < getSize comm ->
  isCompatible (map_obj (contigMap comm)) (map_obj (cyclicMap comm)) = false.
Proof.
  intros Hc Hbig. pose proof (uniform_count_large Hc Hbig) as Hcount.
  destruct Hc as [[HP _] _].
  cbn [map_obj contigMap cyclicMap]. 
  change (TpetraMap.isCompatible
            (TpetraMap.contiguous (numGlobalElements_of comm) indexBase comm)
            (TpetraMap.from_list (numGlobalElements_of comm)
               (elementList_of (getSize comm)) indexBase comm) = false).
  unfold TpetraMap.isCompatible, TpetraMap.contiguous, TpetraMap.from_list.
  cbn [TpetraMap.numGlobalElements TpetraMap.nodeElementLists].
  apply andb_false_intro2, bool_decide_eq_false.
  rewrite TpetraMapFacts.ranks_cons, !fmap_cons by lia.
  intros Heq. injection Heq as H0 _.
  rewrite TpetraMapFacts.length_block in H0. lia.
Qed.

(** C4: the branch of the compatibility assertion is reached.  On a
    communicator of the MPI runtime with more than 429496729 processes the
    element count is not [5*P], the two Maps of the routine are not
    compatible, the test of the third assertion holds, and [main] ends with
    the error of that assertion. *)
Theorem compatibility_assertion_reached :
  valid_comm comm -> 429496729 < getSize comm ->
  numGlobalElements_of comm <> 5 * getSize comm
  /\ isCompatible (map_obj (contigMap comm)) (map_obj (cyclicMap comm)) = false
  /\ test3 comm = true
  /\ forall E,
       (main E comm).1
       = Terminated
           (logic_error "contigMap should be compatible with cyclicMap, but it's not.").
Proof.
  intros Hc Hbig.
  pose proof (routine_maps_incompatible Hc Hbig) as Hno.
  split.
  { destruct (numGlobalElements_of_large Hc Hbig) as [_ Hn].
    destruct Hc as [[HP _] _]. lia. }
  split; [exact Hno|].
  assert (H3 : test3 comm = true) by (unfold test3; by rewrite Hno).
  split; [exact H3|].
  intros E. rewrite main_run. unfold main_termination.
  by rewrite test1_false, (test2_false comm Hc), H3.
Qed.

End Overflow.

Lemma compatibility_assertion_reached_witness :
  valid_comm (mkComm 429496730 0) /\ 429496729 < getSize (mkComm 429496730 0)
  /\ test3 (ML := TpetraMap.library) (mkComm 429496730 0) = true
  /\ (main (ML := TpetraMap.library) sample_environment (mkComm 429496730 0)).1
     = Terminated
         (logic_error "contigMap should be compatible with cyclicMap, but it's not.").
Proof.
  assert (Hc : valid_comm (mkComm 429496730 0))
    by (unfold valid_comm, INT_MAX; cbn; lia).
  assert (Hbig : 429496729 < getSize (mkComm 429496730 0)) by (cbn; lia).
  pose proof (compatibility_assertion_reached (mkComm 429496730 0) Hc Hbig)
    as (_ & _ & H3 & Hmain).
  split; [exact Hc|]. split; [exact Hbig|]. split; [exact H3|].
  exact (Hmain sample_environment).
Defined.
